(** * mockfs.storage: the in-memory [file] object and its backend

    A shallow embedding of [src/mockfs/storage.py].  Python objects are
    modelled with explicit state passing: a method of [file] is a function
    from the handle and the process-wide state (the backing [_store] and the
    descriptor counter) to an outcome, the handle and the process-wide state
    afterwards.  An exception keeps the state reached when it was raised,
    as in Python. *)

From Stdlib Require Import ZArith Lia Ascii String List Bool.
From stdpp Require Import gmap strings list fin_maps.

Local Open Scope string_scope.
Local Open Scope list_scope.
Local Open Scope Z_scope.

(** ** Text

    File contents are sequences of units.  The module is written for Python 2
    (['rU'], [softspace], [next]), where [str] and bytes are one type, so
    both are modelled as lists of characters.  Under Python 3 the buffer of
    a binary handle holds bytes, on which the [find('\n')] of [readline] and
    the ['\x00'] padding of [truncate] raise [TypeError]: there the
    embedding of these two methods is faithful on text handles only. *)

Abbreviation text := (list ascii).

Definition LF : ascii := "010"%char.
Definition CR : ascii := "013"%char.
Definition NUL : ascii := "000"%char.

Definition text_of (s : string) : text := list_ascii_of_string s.

(** [len(s)] as a Python integer. *)
Definition len (s : text) : Z := Z.of_nat (length s).

(** One bound of a slice, clamped as Python does: a negative index counts
    from the end. *)
Definition slice_index (i : Z) (s : text) : nat :=
  if i <? 0 then Z.to_nat (Z.max 0 (i + len s))
  else Z.to_nat (Z.min i (len s)).

(** [s[lo:hi]]; [None] is an omitted bound. *)
Definition slice (s : text) (lo hi : option Z) : text :=
  let l := match lo with Some i => slice_index i s | None => 0%nat end in
  let h := match hi with Some i => slice_index i s | None => length s end in
  take (h - l) (drop l s).

(** [n * s]: the empty text when [n <= 0]. *)
Definition times (n : Z) (s : text) : text :=
  concat (replicate (Z.to_nat n) s).

Fixpoint starts_with (p s : text) : bool :=
  match p, s with
  | [], _ => true
  | a :: p', b :: s' => Ascii.eqb a b && starts_with p' s'
  | _ :: _, [] => false
  end.

(** [s.replace(old, new)] for a non-empty [old]: a left-to-right scan over
    non-overlapping occurrences.  [skip] counts the units of a matched
    occurrence that are still to be passed over. *)
Fixpoint replace_from (old new : text) (skip : nat) (s : text) : text :=
  match s with
  | [] => []
  | c :: t =>
      match skip with
      | S k => replace_from old new k t
      | O =>
          if starts_with old s
          then new ++ replace_from old new (pred (length old)) t
          else c :: replace_from old new 0 t
      end
  end.

Definition replace (s old new : text) : text := replace_from old new 0 s.

Fixpoint find_from (c : ascii) (s : text) (i : Z) : Z :=
  match s with
  | [] => -1
  | x :: t => if Ascii.eqb x c then i else find_from c t (i + 1)
  end.

(** [s.find(c)] for a one-unit needle: the first index, or [-1]. *)
Definition find (s : text) (c : ascii) : Z := find_from c s 0.

(** ** Mode strings *)

Definition endswith (s suffix : string) : bool :=
  String.prefix (String.rev suffix) (String.rev s).

Definition startswith (s p : string) : bool := String.prefix p s.

Definition PURE_READ_MODES : list string := ["r"; "rb"; "rU"].
Definition PURE_WRITE_MODES : list string := ["w"; "wb"; "a"; "ab"].
Definition MIXED_MODES : list string := ["r+"; "r+b"; "w+"; "w+b"; "a+"; "a+b"].

(** [ALL_MODES] is computed before the two [+=], [READ_MODES] and
    [WRITE_MODES] are their values after it. *)
Definition ALL_MODES : list string :=
  PURE_READ_MODES ++ PURE_WRITE_MODES ++ MIXED_MODES.
Definition READ_MODES : list string := PURE_READ_MODES ++ MIXED_MODES.
Definition WRITE_MODES : list string := PURE_WRITE_MODES ++ MIXED_MODES.

(** [m in modes] on a tuple of strings. *)
Definition mode_in (m : string) (modes : list string) : bool :=
  bool_decide (m ∈ modes).

(** ** Exceptions and outcomes *)

(** A message is a literal or a format applied to one argument
    ([fmt % arg]), kept unevaluated. *)
Inductive message :=
  | Msg (s : string)
  | Fmt (fmt : string) (arg : string).

Inductive exc :=
  | TypeError (m : message)
  | ValueError (m : message)
  | IOError (m : message)
  | KeyError (key : string)
  | IndexError
  | AssertionError (m : message)
  | StopIteration.

Inductive result (A : Type) :=
  | Ok (a : A)
  | Raise (e : exc).
Arguments Ok {A} a.
Arguments Raise {A} e.

(** ** Process-wide state: [_store] and [_fileno_counter] *)

Record world := World {
  _store : gmap string text;
  _fileno_counter : Z
}.

Definition initial_world : world := World ∅ 2.

Definition get_new_fileno (w : world) : Z * world :=
  let c := _fileno_counter w + 1 in
  (c, World (_store w) c).

(** The example backend: four static methods over [_store]. *)
Module backend.

Definition CheckForFile (filename : string) (w : world) : bool :=
  bool_decide (is_Some (_store w !! filename)).

Definition DeleteFile (filename : string) (w : world) : result unit * world :=
  match _store w !! filename with
  | Some _ => (Ok tt, World (delete filename (_store w)) (_fileno_counter w))
  | None => (Raise (KeyError filename), w)
  end.

Definition LoadFile (filename : string) (w : world) : result text * world :=
  match _store w !! filename with
  | Some d => (Ok d, w)
  | None => (Raise (KeyError filename), w)
  end.

Definition SaveFile (filename : string) (data : text) (w : world)
  : result unit * world :=
  (Ok tt, World (<[filename := data]> (_store w)) (_fileno_counter w)).

End backend.

(** ** The [file] object *)

Record file := File {
  _name : string;
  _mode : string;
  _position : Z;
  _closed : bool;
  _binary : bool;
  _fileno : Z;
  _in_iter : bool;
  _softspace : Z;
  _data : text
}.

Definition set_position (p : Z) (f : file) : file :=
  File (_name f) (_mode f) p (_closed f) (_binary f) (_fileno f)
       (_in_iter f) (_softspace f) (_data f).
Definition set_closed (b : bool) (f : file) : file :=
  File (_name f) (_mode f) (_position f) b (_binary f) (_fileno f)
       (_in_iter f) (_softspace f) (_data f).
Definition set_in_iter (b : bool) (f : file) : file :=
  File (_name f) (_mode f) (_position f) (_closed f) (_binary f) (_fileno f)
       b (_softspace f) (_data f).
Definition set_softspace (v : Z) (f : file) : file :=
  File (_name f) (_mode f) (_position f) (_closed f) (_binary f) (_fileno f)
       (_in_iter f) v (_data f).
Definition set_data (d : text) (f : file) : file :=
  File (_name f) (_mode f) (_position f) (_closed f) (_binary f) (_fileno f)
       (_in_iter f) (_softspace f) d.

(** The read-only properties. *)
Definition mode (f : file) : string := _mode f.
Definition name (f : file) : string := _name f.
Definition closed (f : file) : bool := _closed f.

(** ** Methods as state-and-exception computations *)

Definition M (A : Type) : Type := file -> world -> result A * file * world.

Definition ret {A} (a : A) : M A := fun f w => (Ok a, f, w).
Definition raise {A} (e : exc) : M A := fun f w => (Raise e, f, w).
Definition bind {A B} (c : M A) (k : A -> M B) : M B :=
  fun f w =>
    match c f w with
    | (Ok a, f', w') => k a f' w'
    | (Raise e, f', w') => (Raise e, f', w')
    end.

(** [try: c except IOError as e: h e] *)
Definition try_except_IOError {A} (c : M A) (h : message -> M A) : M A :=
  fun f w =>
    match c f w with
    | (Raise (IOError m), f', w') => h m f' w'
    | r => r
    end.

Definition self : M file := fun f w => (Ok f, f, w).
Definition update (g : file -> file) : M unit := fun f w => (Ok tt, g f, w).
Definition call_backend {A} (b : world -> result A * world) : M A :=
  fun f w => let '(r, w') := b w in (r, f, w').
Definition when (b : bool) (c : M unit) : M unit := if b then c else ret tt.

Declare Scope meth_scope.
Delimit Scope meth_scope with meth.
Notation "x <- c ;; k" := (bind c (fun x => k))
  (at level 100, c at next level, right associativity) : meth_scope.
Notation "c ;; k" := (bind c (fun _ => k))
  (at level 100, right associativity) : meth_scope.
Local Open Scope meth_scope.

Definition outcome {A} (r : result A * file * world) : result A := r.1.1.
Definition handle {A} (r : result A * file * world) : file := r.1.2.
Definition globals {A} (r : result A * file * world) : world := r.2.

Definition _open_read : M unit :=
  f <- self ;;
  exists_ <- call_backend (fun w => (Ok (backend.CheckForFile (name f) w), w)) ;;
  when (negb exists_)
    (raise (IOError (Fmt "No such file or directory: %r" (name f)))) ;;
  data <- call_backend (backend.LoadFile (name f)) ;;
  let data := if negb (_binary f) then replace data [CR; LF] [LF] else data in
  update (set_data data).

Definition _open_write : M unit :=
  f <- self ;;
  try_except_IOError
    (call_backend (backend.SaveFile (name f) []))
    (fun m => update (set_closed true) ;; raise (IOError m)).

Definition _open_append : M unit :=
  f <- self ;;
  exists_ <- call_backend (fun w => (Ok (backend.CheckForFile (name f) w), w)) ;;
  if exists_ : bool then
    _open_read ;;
    f <- self ;;
    update (set_position (len (_data f)))
  else _open_write.

Definition unsupported_mode : string :=
  "The only supported modes are r(+)(b), w(+)(b) and a(+)(b), not %r".

(** [file.__init__(self, name, mode)].  [name] and [mode] are strings by
    their type, so the two [TypeError] guards cannot fire.  The object is
    built field by field before the mode is validated; the handle component
    of the result is the object as it stands when [__init__] returns or
    raises. *)
Definition __init__ (name mode : string) (w : world)
  : result unit * file * world :=
  let '(fileno, w) := get_new_fileno w in
  let f := File name mode 0 false (endswith mode "b") fileno false 0 [] in
  (when (negb (mode_in mode ALL_MODES))
     (raise (ValueError (Fmt unsupported_mode mode))) ;;
   when (String.eqb name "")
     (raise (IOError (Msg "No such file or directory: ''"))) ;;
   reads <- (if mode_in mode READ_MODES then
               match String.get 0 mode with
               | Some c => ret (negb (bool_decide (c ∈ ["a"%char; "w"%char])))
               | None => raise IndexError
               end
             else ret false) ;;
   if reads : bool then _open_read
   else if mode_in mode WRITE_MODES then
     if startswith mode "a" then _open_append else _open_write
   else
     raise (AssertionError (Msg "whoops - not possible, surely??"))) f w.

Definition bad_descriptor : exc := IOError (Msg "Bad file descriptor").
Definition closed_file : exc := ValueError (Msg "I/O operation on closed file").
Definition mixing_iteration : exc :=
  ValueError (Msg "Mixing iteration and read methods would lose data").

(** Numeric arguments are integers by their type: the float coercion and the
    [TypeError] of [_check_int_argument] cannot fire.  An omitted argument
    ([DEFAULT]) is [None]. *)
Definition _check_int_argument (arg : Z) : M Z := ret arg.

Definition read (size : option Z) : M text :=
  f <- self ;;
  when (negb (mode_in (mode f) READ_MODES)) (raise bad_descriptor) ;;
  when (closed f) (raise closed_file) ;;
  when (_in_iter f) (raise mixing_iteration) ;;
  let pos := _position f in
  when ((pos =? 0) && negb (mode_in (mode f) WRITE_MODES)) _open_read ;;
  f <- self ;;
  size <- match size with
          | None => ret (len (_data f))
          | Some size =>
              size <- _check_int_argument size ;;
              ret (if size <? 0 then len (_data f) else size)
          end ;;
  let data := slice (_data f) (Some pos) (Some (pos + size)) in
  update (fun f => set_position (_position f + len data) f) ;;
  ret data.

Definition write (data : text) : M unit :=
  f <- self ;;
  when (negb (mode_in (mode f) WRITE_MODES)) (raise bad_descriptor) ;;
  when (closed f) (raise closed_file) ;;
  update (set_softspace 0) ;;
  match data with
  | [] => ret tt
  | _ =>
      let null := [NUL] in
      let data := if _binary f then data else replace data [LF] [CR; LF] in
      f <- self ;;
      let position := _position f in
      let start := slice (_data f) None (Some position) in
      let padding := times (position - len start) null in
      let end_ := slice (_data f) (Some (position + len data)) None in
      update (set_data (start ++ padding ++ data ++ end_)) ;;
      update (set_position (position + len data))
  end.

Definition close : M unit :=
  f <- self ;;
  if closed f then ret tt
  else
    update (set_closed true) ;;
    when (mode_in (mode f) WRITE_MODES)
      (f <- self ;; call_backend (backend.SaveFile (name f) (_data f))).

Definition seek (position whence : Z) : M unit :=
  position <- _check_int_argument position ;;
  whence <- _check_int_argument whence ;;
  when (negb ((0 <=? whence) && (whence <=? 2)))
    (raise (IOError (Msg "Invalid Argument"))) ;;
  f <- self ;;
  let position :=
    if whence =? 1 then _position f + position
    else if whence =? 2 then len (_data f) + position
    else position in
  when (position <? 0) (raise (IOError (Msg "Invalid Argument"))) ;;
  update (set_in_iter false) ;;
  update (set_position position).

Definition tell : M Z := f <- self ;; ret (_position f).

Definition flush : M unit :=
  f <- self ;;
  when (negb (mode_in (mode f) WRITE_MODES)) (raise bad_descriptor) ;;
  call_backend (backend.SaveFile (name f) (_data f)).

Definition readline (size : option Z) : M text :=
  f <- self ;;
  when (mode_in (mode f) WRITE_MODES) (raise bad_descriptor) ;;
  size <- match size with
          | None => ret None
          | Some size =>
              size <- _check_int_argument size ;;
              ret (if size <? 0 then None else Some size)
          end ;;
  if len (_data f) <=? _position f then ret []
  else
    let position := _position f in
    let remaining := slice (_data f) (Some position) None in
    let poz := find remaining LF in
    if poz =? -1 then
      match size with
      | None =>
          update (set_position (len (_data f))) ;; ret remaining
      | Some size =>
          if len remaining <? size then
            update (set_position (len (_data f))) ;; ret remaining
          else
            let actual := slice remaining None (Some size) in
            update (fun f => set_position (_position f + len actual) f) ;;
            ret actual
      end
    else
      match size with
      | None =>
          update (set_position (position + poz + 1)) ;;
          ret (slice remaining None (Some (poz + 1)))
      | Some size =>
          let actual := slice remaining None (Some (poz + 1)) in
          if len actual <=? size then
            update (fun f => set_position (_position f + len actual) f) ;;
            ret actual
          else
            update (fun f => set_position (_position f + size) f) ;;
            ret (slice actual None (Some size))
      end.

Definition __next__ : M text :=
  f <- self ;;
  when (mode_in (mode f) WRITE_MODES) (raise bad_descriptor) ;;
  update (set_in_iter true) ;;
  f <- self ;;
  when (len (_data f) <=? _position f) (raise StopIteration) ;;
  readline None.

(** [list(self)]: [__iter__] returns the handle itself, and the list is
    built by calling [__next__] until it raises [StopIteration]; any other
    exception ends the loop and propagates.  The loop is bounded by [fuel];
    [None] means the bound was reached before the loop ended. *)
Fixpoint list_self (fuel : nat) (f : file) (w : world)
  : option (result (list text) * file * world) :=
  match fuel with
  | O => None
  | S fuel' =>
      match __next__ f w with
      | (Ok line, f', w') =>
          match list_self fuel' f' w' with
          | Some (Ok lines, f'', w'') => Some (Ok (line :: lines), f'', w'')
          | other => other
          end
      | (Raise StopIteration, f', w') => Some (Ok [], f', w')
      | (Raise e, f', w') => Some (Raise e, f', w')
      end
  end.

Definition readlines (fuel : nat) (size : option Z) (f : file) (w : world)
  : option (result (list text) * file * world) :=
  if mode_in (mode f) WRITE_MODES then Some (Raise bad_descriptor, f, w)
  else
    (* the size argument is checked and then ignored *)
    match list_self fuel f w with
    | Some (Ok result, f', w') => Some (Ok result, set_in_iter false f', w')
    | other => other
    end.

Definition truncate (size : option Z) : M unit :=
  f <- self ;;
  when (mode_in (mode f) READ_MODES) (raise bad_descriptor) ;;
  size <- match size with
          | Some size =>
              size <- _check_int_argument size ;;
              when (size <? 0) (raise (IOError (Msg "Invalid argument"))) ;;
              ret size
          | None => ret (_position f)
          end ;;
  let data := slice (_data f) None (Some size) in
  update (set_data (data ++ times (size - len data) [NUL])) ;;
  flush.

Fixpoint write_each (sequence : list text) : M unit :=
  match sequence with
  | [] => ret tt
  | line :: rest => write line ;; write_each rest
  end.

Definition writelines (sequence : list text) : M unit :=
  f <- self ;;
  when (negb (mode_in (mode f) WRITE_MODES)) (raise bad_descriptor) ;;
  write_each sequence.

(** ** Running methods in sequence *)

(** [run c r] continues from the state [r] reached by an earlier call,
    whatever its outcome was. *)
Definition run {A B} (c : M B) (r : result A * file * world)
  : result B * file * world := c (handle r) (globals r).

(** The exception class of an outcome. *)
Inductive exc_class :=
  | CTypeError | CValueError | CIOError | CKeyError | CIndexError
  | CAssertionError | CStopIteration.

Definition class_of (e : exc) : exc_class :=
  match e with
  | TypeError _ => CTypeError
  | ValueError _ => CValueError
  | IOError _ => CIOError
  | KeyError _ => CKeyError
  | IndexError => CIndexError
  | AssertionError _ => CAssertionError
  | StopIteration => CStopIteration
  end.

Definition raises {A} (r : result A) (c : exc_class) : Prop :=
  match r with
  | Raise e => class_of e = c
  | Ok _ => False
  end.

Definition succeeds {A} (r : result A) : Prop :=
  match r with Ok _ => True | Raise _ => False end.

(** ** The twelve tokens the specification lists *)

Definition SPEC_MODES : list string :=
  ["r"; "rb"; "r+"; "r+b"; "w"; "wb"; "w+"; "w+b"; "a"; "ab"; "a+"; "a+b"].

Fixpoint contains (s sub : string) : bool :=
  String.prefix sub s ||
  match s with
  | EmptyString => false
  | String _ s' => contains s' sub
  end.

(** ** Sample states *)

Definition sample_text : text := text_of "ab" ++ [LF] ++ text_of "cd".

(** A store holding ["ab\ncd"] under the name ["f"]. *)
Definition sample_world : world := World (<["f" := sample_text]> ∅) 2.

(** A handle opened on ["f"] in the given mode, then closed. *)
Definition closed_handle (m : string) : result unit * file * world :=
  run close (__init__ "f" m sample_world).

(** * Properties *)

Ltac unfold_meth :=
  unfold run, outcome, handle, globals, writelines, truncate, __next__, read,
    write, close, seek, tell, flush, readline, _open_append, _open_read,
    _open_write, _check_int_argument, try_except_IOError, call_backend,
    update, self, when, bind, ret, raise, backend.CheckForFile,
    backend.LoadFile, backend.SaveFile, mode, name, closed in *.

(** Case analysis on every [match] the goal is stuck on. *)
Ltac cases := repeat (simpl in *; case_match; simplify_eq); simpl in *.

Ltac split_all := repeat match goal with |- _ /\ _ => split end.

(** Membership in a literal list of modes, one case per token. *)
Ltac each_mode H :=
  repeat (apply elem_of_cons in H as [-> | H]);
  [.. | apply elem_of_nil in H; destruct H].

Section Modes.

Lemma mode_in_true m l : mode_in m l = true <-> m ∈ l.
Proof. unfold mode_in. apply bool_decide_eq_true. Qed.

Lemma mode_in_false m l : mode_in m l = false <-> m ∉ l.
Proof. unfold mode_in. apply bool_decide_eq_false. Qed.

Lemma ALL_MODES_spec m : m ∈ ALL_MODES <-> m ∈ SPEC_MODES \/ m = "rU".
Proof.
  unfold ALL_MODES, PURE_READ_MODES, PURE_WRITE_MODES, MIXED_MODES,
    SPEC_MODES; simpl.
  rewrite !elem_of_cons, !elem_of_nil. tauto.
Qed.

Lemma READ_MODES_sub m : m ∈ READ_MODES -> m ∈ ALL_MODES.
Proof.
  unfold READ_MODES, ALL_MODES. rewrite !elem_of_app. tauto.
Qed.

Lemma WRITE_MODES_sub m : m ∈ WRITE_MODES -> m ∈ ALL_MODES.
Proof.
  unfold WRITE_MODES, ALL_MODES. rewrite !elem_of_app. tauto.
Qed.

(** A token of [ALL_MODES] without write capability is a pure read
    token. *)
Lemma not_write_is_read m :
  m ∈ ALL_MODES -> m ∉ WRITE_MODES -> m ∈ READ_MODES.
Proof.
  unfold READ_MODES, WRITE_MODES, ALL_MODES. rewrite !elem_of_app. tauto.
Qed.

End Modes.

(** ** C1: mode validation *)

(** [__init__] raises a [ValueError] only for the mode, whatever the name
    and the store are. *)
Lemma init_ValueError_is_mode nm m w e :
  outcome (__init__ nm m w) = Raise (ValueError e) ->
  mode_in m ALL_MODES = false.
Proof.
  destruct (mode_in m ALL_MODES) eqn:Hm; [| reflexivity].
  apply mode_in_true in Hm. intros H. exfalso. revert H.
  unfold ALL_MODES, PURE_READ_MODES, PURE_WRITE_MODES, MIXED_MODES in Hm.
  simpl in Hm.
  each_mode Hm; unfold __init__, get_new_fileno; unfold_meth; simpl;
    cases; intro; discriminate.
Qed.

(** C1 (as the code has it): [file(name, mode)] raises the mode
    [ValueError] exactly when [mode] is outside [ALL_MODES], which is the
    twelve listed tokens together with ['rU']; the message is the fixed
    format naming the families [r(+)(b)], [w(+)(b)] and [a(+)(b)], and no
    other [ValueError] comes out of the constructor. *)
Theorem C1_mode_accepted_iff_in_ALL_MODES :
  forall (nm m : string) (w : world),
    (outcome (__init__ nm m w) = Raise (ValueError (Fmt unsupported_mode m))
       <-> ~ (m ∈ SPEC_MODES \/ m = "rU")) /\
    (raises (outcome (__init__ nm m w)) CValueError ->
       outcome (__init__ nm m w) = Raise (ValueError (Fmt unsupported_mode m))) /\
    contains unsupported_mode "r(+)(b)" = true /\
    contains unsupported_mode "w(+)(b)" = true /\
    contains unsupported_mode "a(+)(b)" = true.
Proof.
  intros nm m w.
  assert (Hrej : mode_in m ALL_MODES = false ->
            outcome (__init__ nm m w)
            = Raise (ValueError (Fmt unsupported_mode m))).
  { intros Hm. unfold __init__, get_new_fileno. unfold_meth.
    rewrite Hm. reflexivity. }
  split_all; try reflexivity.
  - rewrite <- ALL_MODES_spec, <- mode_in_false. split.
    + apply init_ValueError_is_mode.
    + exact Hrej.
  - intros Hv. apply Hrej.
    destruct (outcome (__init__ nm m w)) as [| e] eqn:Ho; [destruct Hv |].
    destruct e; simpl in Hv; try discriminate.
    eapply init_ValueError_is_mode; eassumption.
Qed.

(** C1 as stated fails at ['rU']: it is none of the twelve tokens, and the
    constructor accepts it. *)
Lemma C1_rU_accepted :
  ("rU" ∉ SPEC_MODES) /\ outcome (__init__ "f" "rU" sample_world) = Ok tt.
Proof.
  split; [| vm_compute; reflexivity].
  unfold SPEC_MODES. rewrite !elem_of_cons, elem_of_nil.
  intros H. repeat (destruct H as [H | H]; [discriminate |]). exact H.
Qed.

(** ** C2: operations on a closed handle *)

(** The handle operations with their arguments, to state facts about all
    of them at once.  [perform] forgets the returned value. *)
Inductive operation :=
  | OpRead (size : option Z)
  | OpWrite (data : text)
  | OpWritelines (sequence : list text)
  | OpClose
  | OpSeek (position whence : Z)
  | OpTell
  | OpFlush
  | OpReadline (size : option Z)
  | OpNext
  | OpTruncate (size : option Z).

Definition forget {A} (c : M A) : M unit := bind c (fun _ => ret tt).

Definition perform (o : operation) : M unit :=
  match o with
  | OpRead size => forget (read size)
  | OpWrite data => write data
  | OpWritelines sequence => writelines sequence
  | OpClose => close
  | OpSeek position whence => seek position whence
  | OpTell => forget tell
  | OpFlush => flush
  | OpReadline size => forget (readline size)
  | OpNext => forget __next__
  | OpTruncate size => truncate size
  end.

Lemma write_keeps_closed data f w :
  _closed (handle (write data f w)) = _closed f.
Proof. unfold_meth. cases; congruence. Qed.

Lemma write_each_keeps_closed sequence f w :
  _closed (handle (write_each sequence f w)) = _closed f.
Proof.
  revert f w. induction sequence as [| line rest IH]; intros f w; [reflexivity |].
  simpl. unfold bind.
  pose proof (write_keeps_closed line f w) as Hw.
  destruct (write line f w) as [[[] f'] w']; simpl in *; [| exact Hw].
  rewrite IH. exact Hw.
Qed.

(** [closed] only ever goes from false to true. *)
Lemma closed_monotonic o f w :
  closed f = true -> closed (handle (perform o f w)) = true.
Proof.
  intros Hc. destruct o; simpl; unfold forget;
    try (unfold_meth; cases; congruence).
  unfold writelines, bind, self, when. simpl. unfold closed.
  destruct (mode_in (mode f) WRITE_MODES); simpl; [| exact Hc].
  rewrite write_each_keeps_closed. exact Hc.
Qed.

Lemma list_self_keeps_closed fuel : forall f w r f' w',
  list_self fuel f w = Some (r, f', w') -> _closed f' = _closed f.
Proof.
  induction fuel as [| fuel IH]; intros f w r f' w' H; [discriminate |].
  simpl in H.
  assert (Hn : _closed (handle (__next__ f w)) = _closed f)
    by (unfold_meth; cases; congruence).
  destruct (__next__ f w) as [[[line | e] f1] w1]; unfold handle in Hn;
    simpl in Hn.
  - destruct (list_self fuel f1 w1) as [[[[lines | e] f2] w2] |] eqn:Hl;
      simplify_eq; apply IH in Hl; congruence.
  - destruct e; simplify_eq; exact Hn.
Qed.

Lemma readlines_keeps_closed fuel size f w r f' w' :
  readlines fuel size f w = Some (r, f', w') -> _closed f' = _closed f.
Proof.
  unfold readlines. destruct (mode_in (mode f) WRITE_MODES).
  - intros H. simplify_eq. reflexivity.
  - destruct (list_self fuel f w) as [[[[lines | e] f2] w2] |] eqn:Hl;
      intros H; simplify_eq; apply list_self_keeps_closed in Hl; exact Hl.
Qed.

(** The two guarded operations: a closed handle refuses a permitted read or
    write. *)
Lemma read_after_close size f w :
  closed f = true -> mode f ∈ READ_MODES ->
  outcome (read size f w) = Raise closed_file.
Proof.
  intros Hc Hm. apply mode_in_true in Hm. unfold_meth.
  rewrite Hm, Hc. reflexivity.
Qed.

Lemma write_after_close data f w :
  closed f = true -> mode f ∈ WRITE_MODES ->
  outcome (write data f w) = Raise closed_file.
Proof.
  intros Hc Hm. apply mode_in_true in Hm. unfold_meth.
  rewrite Hm, Hc. reflexivity.
Qed.

(** C2 (the code at closed handles): on a handle opened for writing and
    closed, [seek], [tell], [flush] and [truncate] all return normally, and
    [flush] commits to the store again; on a handle opened for reading and
    closed, [readline] and the iteration step return a line; [read] on the
    closed write-only handle fails with the bad-descriptor error, not the
    use-after-close error.  None of them raises the closed-file error. *)
Theorem C2_closed_handle_still_operates :
  closed (handle (closed_handle "w")) = true /\
  outcome (run (seek 0 0) (closed_handle "w")) = Ok tt /\
  outcome (run tell (closed_handle "w")) = Ok 0 /\
  outcome (run flush (closed_handle "w")) = Ok tt /\
  outcome (run (truncate (Some 3)) (closed_handle "w")) = Ok tt /\
  _store (globals (run (truncate (Some 3)) (closed_handle "w"))) !! "f"
    = Some [NUL; NUL; NUL] /\
  outcome (run (read None) (closed_handle "w")) = Raise bad_descriptor /\
  closed (handle (closed_handle "r")) = true /\
  outcome (run (readline None) (closed_handle "r"))
    = Ok (text_of "ab" ++ [LF]) /\
  outcome (run __next__ (closed_handle "r")) = Ok (text_of "ab" ++ [LF]).
Proof. vm_compute. split_all; reflexivity. Qed.

(** ** C3: the capability test of [truncate] *)

Lemma truncate_bad_descriptor size f w :
  mode f ∈ READ_MODES -> outcome (truncate size f w) = Raise bad_descriptor.
Proof.
  intros Hm. apply mode_in_true in Hm. unfold_meth. rewrite Hm. reflexivity.
Qed.

Lemma truncate_permitted size f w :
  mode f ∈ ALL_MODES -> mode f ∉ READ_MODES ->
  outcome (truncate size f w) <> Raise bad_descriptor.
Proof.
  intros Ha Hr.
  assert (Hw : mode_in (mode f) WRITE_MODES = true).
  { apply mode_in_true. revert Ha Hr. unfold ALL_MODES, READ_MODES, WRITE_MODES.
    rewrite !elem_of_app. tauto. }
  apply mode_in_false in Hr. unfold_meth. rewrite Hr. simpl.
  destruct size as [size |]; simpl.
  - destruct (size <? 0); simpl; [discriminate |]. rewrite Hw. discriminate.
  - rewrite Hw. discriminate.
Qed.

(** C3 (the code at the mixed tokens): each of [r+], [r+b], [w+], [w+b],
    [a+], [a+b] is write-capable and opens the sample file, yet [truncate]
    on the handle raises the bad-descriptor error. *)
Theorem C3_truncate_refuses_mixed_modes :
  Forall (fun m =>
            mode_in m WRITE_MODES = true /\
            outcome (__init__ "f" m sample_world) = Ok tt /\
            outcome (run (truncate None) (__init__ "f" m sample_world))
              = Raise bad_descriptor /\
            outcome (run (truncate (Some 1)) (__init__ "f" m sample_world))
              = Raise bad_descriptor)
         MIXED_MODES.
Proof.
  unfold MIXED_MODES.
  repeat (apply Forall_cons; split; [vm_compute; split_all; done |]).
  apply Forall_nil_2.
Qed.

(** ** C4: the capability test of the line-reading operations *)

Lemma readline_bad_descriptor size f w :
  mode f ∈ WRITE_MODES -> outcome (readline size f w) = Raise bad_descriptor.
Proof.
  intros Hm. apply mode_in_true in Hm. unfold_meth. rewrite Hm. reflexivity.
Qed.

Lemma next_bad_descriptor f w :
  mode f ∈ WRITE_MODES ->
  __next__ f w = (Raise bad_descriptor, f, w).
Proof.
  intros Hm. apply mode_in_true in Hm. unfold_meth. rewrite Hm. reflexivity.
Qed.

Lemma readlines_bad_descriptor fuel size f w :
  mode f ∈ WRITE_MODES ->
  readlines fuel size f w = Some (Raise bad_descriptor, f, w).
Proof.
  intros Hm. apply mode_in_true in Hm. unfold readlines. rewrite Hm.
  reflexivity.
Qed.

(** C4 (the code at the mixed tokens): each mixed token is read-capable and
    [read] works on its handle, yet [readline], [readlines] and the
    iteration step raise the bad-descriptor error. *)
Theorem C4_line_reads_refuse_mixed_modes :
  Forall (fun m =>
            let h := __init__ "f" m sample_world in
            mode_in m READ_MODES = true /\
            outcome h = Ok tt /\
            succeeds (outcome (run (read None) h)) /\
            outcome (run (readline None) h) = Raise bad_descriptor /\
            outcome (run __next__ h) = Raise bad_descriptor /\
            option_map outcome (readlines 8 None (handle h) (globals h))
              = Some (Raise bad_descriptor))
         MIXED_MODES.
Proof.
  unfold MIXED_MODES.
  repeat (apply Forall_cons; split; [vm_compute; split_all; done |]).
  apply Forall_nil_2.
Qed.

(** ** C5: the class of three argument errors *)

(** C5 (as the code has it): an empty name with an accepted mode, a negative
    explicit [truncate] size, and a [seek] whose [whence] is outside [0..2]
    each raise an [IOError]. *)
Theorem C5_argument_errors_are_IOError :
  forall (m : string) (w : world) (f : file) (size position whence : Z),
    m ∈ ALL_MODES -> size < 0 -> ~ (0 <= whence <= 2) ->
    outcome (__init__ "" m w)
      = Raise (IOError (Msg "No such file or directory: ''")) /\
    raises (outcome (truncate (Some size) f w)) CIOError /\
    outcome (seek position whence f w) = Raise (IOError (Msg "Invalid Argument")).
Proof.
  intros m w f size position whence Hm Hs Hw. split_all.
  - apply mode_in_true in Hm. unfold __init__, get_new_fileno. unfold_meth.
    rewrite Hm. reflexivity.
  - apply Z.ltb_lt in Hs. unfold_meth.
    destruct (mode_in (_mode f) READ_MODES); simpl; [reflexivity |].
    rewrite Hs. reflexivity.
  - unfold_meth.
    destruct ((0 <=? whence) && (whence <=? 2)) eqn:E; [| reflexivity].
    apply andb_true_iff in E as [E1 E2]. lia.
Qed.

Lemma C5_argument_errors_witness :
  outcome (__init__ "" "r" sample_world)
    = Raise (IOError (Msg "No such file or directory: ''")) /\
  raises (outcome (truncate (Some (-1)) (handle (closed_handle "w"))
                     sample_world)) CIOError /\
  outcome (seek 0 3 (handle (closed_handle "w")) sample_world)
    = Raise (IOError (Msg "Invalid Argument")).
Proof.
  apply (C5_argument_errors_are_IOError "r" sample_world
           (handle (closed_handle "w")) (-1) 0 3).
  - apply mode_in_true. reflexivity.
  - lia.
  - lia.
Defined.

(** C5 as stated fails: none of the three errors is a [ValueError]. *)
Lemma C5_not_ValueError :
  ~ raises (outcome (__init__ "" "r" sample_world)) CValueError /\
  ~ raises (outcome (run (truncate (Some (-1))) (__init__ "f" "w" sample_world)))
      CValueError /\
  ~ raises (outcome (run (seek 0 3) (__init__ "f" "w" sample_world)))
      CValueError.
Proof. vm_compute. split_all; intro; discriminate. Qed.

(** ** Text lemmas *)

Section Text.

Lemma len_nonneg (s : text) : 0 <= len s.
Proof. unfold len. lia. Qed.

Lemma len_app (s t : text) : len (s ++ t) = len s + len t.
Proof. unfold len. rewrite length_app. lia. Qed.

Lemma slice_index_nonneg i (s : text) :
  0 <= i -> slice_index i s = (Z.to_nat i `min` length s)%nat.
Proof.
  intros Hi. unfold slice_index, len.
  destruct (i <? 0) eqn:E; [apply Z.ltb_lt in E; lia |]. lia.
Qed.

Lemma slice_from p (s : text) :
  0 <= p -> slice s (Some p) None = drop (Z.to_nat p) s.
Proof.
  intros Hp. unfold slice. rewrite slice_index_nonneg by exact Hp.
  destruct (Nat.le_gt_cases (length s) (Z.to_nat p)) as [Hge | Hlt].
  - rewrite Nat.min_r by exact Hge.
    rewrite !drop_ge by lia. apply take_nil.
  - rewrite Nat.min_l by lia. apply take_ge. rewrite length_drop. lia.
Qed.

Lemma slice_to q (s : text) :
  0 <= q -> slice s None (Some q) = take (Z.to_nat q) s.
Proof.
  intros Hq. unfold slice. rewrite slice_index_nonneg by exact Hq.
  rewrite drop_0, Nat.sub_0_r.
  destruct (Nat.le_gt_cases (length s) (Z.to_nat q)) as [Hge | Hlt].
  - rewrite Nat.min_r by exact Hge. rewrite !take_ge by lia. reflexivity.
  - rewrite Nat.min_l by lia. reflexivity.
Qed.

Lemma slice_range p q (s : text) :
  0 <= p <= q ->
  slice s (Some p) (Some q)
  = take (Z.to_nat q - Z.to_nat p) (drop (Z.to_nat p) s).
Proof.
  intros Hpq. unfold slice. rewrite !slice_index_nonneg by lia.
  destruct (Nat.le_gt_cases (length s) (Z.to_nat p)) as [Hge | Hlt].
  - rewrite !drop_ge by lia. rewrite !take_nil. reflexivity.
  - rewrite (Nat.min_l (Z.to_nat p)) by lia.
    destruct (Nat.le_gt_cases (length s) (Z.to_nat q)) as [Hge' | Hlt'].
    + rewrite Nat.min_r by exact Hge'.
      rewrite !take_ge by (rewrite length_drop; lia). reflexivity.
    + rewrite Nat.min_l by lia. reflexivity.
Qed.

Lemma slice_whole (s : text) : slice s (Some 0) (Some (0 + len s)) = s.
Proof.
  rewrite slice_range by (pose proof (len_nonneg s); lia).
  simpl. rewrite drop_0. apply take_ge. unfold len. lia.
Qed.

Lemma times_length n (s : text) :
  0 <= n -> len (times n [NUL]) = n.
Proof.
  intros Hn. unfold times, len.
  assert (H : forall k, length (concat (replicate k [NUL])) = k).
  { induction k as [| k IH]; simpl; [reflexivity | rewrite IH; reflexivity]. }
  rewrite H. lia.
Qed.

Lemma translate_cons c t :
  replace_from [LF] [CR; LF] 0 (c :: t)
  = if Ascii.eqb LF c then CR :: LF :: replace_from [LF] [CR; LF] 0 t
    else c :: replace_from [LF] [CR; LF] 0 t.
Proof.
  cbn [replace_from starts_with length pred app].
  rewrite andb_true_r. reflexivity.
Qed.

Lemma normalize_cons c t :
  replace_from [CR; LF] [LF] 0 (c :: t)
  = if Ascii.eqb CR c && starts_with [LF] t
    then LF :: replace_from [CR; LF] [LF] 1 t
    else c :: replace_from [CR; LF] [LF] 0 t.
Proof.
  cbn [replace_from starts_with length pred app].
  destruct t as [| x t]; cbn [starts_with];
    rewrite ?andb_true_r; reflexivity.
Qed.

(** Writing turns every LF into CR LF, so the translated text never begins
    with a bare LF. *)
Lemma translated_head t :
  starts_with [LF] (replace t [LF] [CR; LF]) = false.
Proof.
  unfold replace. destruct t as [| c t]; [reflexivity |].
  rewrite translate_cons. destruct (Ascii.eqb LF c) eqn:E.
  - reflexivity.
  - cbn [starts_with]. rewrite E. reflexivity.
Qed.

(** The translation on write is undone by the translation on load. *)
Lemma replace_round_trip t :
  replace (replace t [LF] [CR; LF]) [CR; LF] [LF] = t.
Proof.
  unfold replace. induction t as [| c t IH]; [reflexivity |].
  rewrite translate_cons. destruct (Ascii.eqb LF c) eqn:E.
  - apply Ascii.eqb_eq in E. subst c.
    rewrite normalize_cons. cbn [starts_with].
    replace (Ascii.eqb CR CR) with true by reflexivity.
    replace (Ascii.eqb LF LF) with true by reflexivity.
    cbn [andb replace_from]. rewrite IH. reflexivity.
  - rewrite normalize_cons.
    pose proof (translated_head t) as Hh. unfold replace in Hh.
    rewrite Hh, andb_false_r, IH. reflexivity.
Qed.

End Text.

(** ** One equation per method, over an arbitrary handle *)

(** Reduce the monadic plumbing and leave texts, integers, the store and
    the mode tables alone. *)
Ltac step :=
  cbn -[len slice times replace find mode_in Z.add Z.sub Z.ltb Z.leb Z.eqb
        Z.opp lookup insert bool_decide String.eqb endswith startswith
        String.get ALL_MODES READ_MODES WRITE_MODES] in *.

Ltac unfold_step := unfold_meth; step.

Section Steps.

Lemma position_set_data d f : _position (set_data d f) = _position f.
Proof. reflexivity. Qed.

Lemma CheckForFile_Some nm d (w : world) :
  _store w !! nm = Some d -> bool_decide (is_Some (_store w !! nm)) = true.
Proof. intros ->. apply bool_decide_eq_true. eauto. Qed.

Lemma open_read_ok f w d :
  _store w !! _name f = Some d ->
  _open_read f w
  = (Ok tt,
     set_data (if negb (_binary f) then replace d [CR; LF] [LF] else d) f, w).
Proof.
  intros Hd. unfold_step.
  rewrite (CheckForFile_Some _ _ _ Hd). step. rewrite Hd. reflexivity.
Qed.

Lemma open_read_missing f w :
  _store w !! _name f = None ->
  _open_read f w
  = (Raise (IOError (Fmt "No such file or directory: %r" (_name f))), f, w).
Proof.
  intros Hd. unfold_step. rewrite Hd.
  rewrite bool_decide_eq_false_2 by (intros [x Hx]; discriminate).
  reflexivity.
Qed.

Lemma open_write_ok f w :
  _open_write f w
  = (Ok tt, f, World (<[_name f := []]> (_store w)) (_fileno_counter w)).
Proof. reflexivity. Qed.

Lemma write_ok data f w :
  mode_in (_mode f) WRITE_MODES = true -> _closed f = false -> data <> [] ->
  let data' := if _binary f then data else replace data [LF] [CR; LF] in
  let position := _position f in
  let start := slice (_data f) None (Some position) in
  write data f w
  = (Ok tt,
     set_position (position + len data')
       (set_data (start ++ times (position - len start) [NUL] ++ data'
                  ++ slice (_data f) (Some (position + len data')) None)
          (set_softspace 0 f)),
     w).
Proof.
  intros Hm Hc Hd. unfold_step. rewrite Hm, Hc. step.
  destruct data as [| c data]; [congruence |]. reflexivity.
Qed.

Lemma write_empty f w :
  mode_in (_mode f) WRITE_MODES = true -> _closed f = false ->
  write [] f w = (Ok tt, set_softspace 0 f, w).
Proof. intros Hm Hc. unfold_step. rewrite Hm, Hc. reflexivity. Qed.

Lemma close_ok f w :
  _closed f = false ->
  close f w
  = (Ok tt, set_closed true f,
     if mode_in (_mode f) WRITE_MODES
     then World (<[_name f := _data f]> (_store w)) (_fileno_counter w)
     else w).
Proof.
  intros Hc. unfold_step. rewrite Hc.
  destruct (mode_in (_mode f) WRITE_MODES); reflexivity.
Qed.

Lemma seek_ok position whence f w :
  0 <= whence <= 2 ->
  let target :=
    if whence =? 1 then _position f + position
    else if whence =? 2 then len (_data f) + position
    else position in
  0 <= target ->
  seek position whence f w
  = (Ok tt, set_position target (set_in_iter false f), w).
Proof.
  intros Hw target Ht. unfold_step.
  replace ((0 <=? whence) && (whence <=? 2)) with true
    by (symmetry; apply andb_true_iff; split; apply Z.leb_le; lia).
  step. fold target.
  replace (target <? 0) with false by (symmetry; apply Z.ltb_ge; lia).
  reflexivity.
Qed.

(** [read] on a handle whose content needs no reload. *)
Lemma read_no_reload size f w :
  mode_in (_mode f) READ_MODES = true -> _closed f = false ->
  _in_iter f = false ->
  (_position f =? 0) && negb (mode_in (_mode f) WRITE_MODES) = false ->
  let n := match size with
           | Some s => if s <? 0 then len (_data f) else s
           | None => len (_data f)
           end in
  let data := slice (_data f) (Some (_position f)) (Some (_position f + n)) in
  read size f w = (Ok data, set_position (_position f + len data) f, w).
Proof.
  intros Hm Hc Hi Hr. unfold_step. rewrite Hm, Hc, Hi. step. rewrite Hr.
  destruct size; reflexivity.
Qed.

(** [read] at position 0 of a handle without write capability: the content
    is loaded again from the store first. *)
Lemma read_reload size f w d :
  mode_in (_mode f) READ_MODES = true -> _closed f = false ->
  _in_iter f = false -> _position f = 0 ->
  mode_in (_mode f) WRITE_MODES = false ->
  _store w !! _name f = Some d ->
  let loaded := if negb (_binary f) then replace d [CR; LF] [LF] else d in
  let n := match size with
           | Some s => if s <? 0 then len loaded else s
           | None => len loaded
           end in
  let data := slice loaded (Some 0) (Some (0 + n)) in
  read size f w
  = (Ok data, set_position (0 + len data) (set_data loaded f), w).
Proof.
  intros Hm Hc Hi Hp Hw Hd. unfold read.
  unfold bind at 1. unfold self at 1.
  unfold bind at 1. unfold when at 1. unfold mode. rewrite Hm. step.
  unfold bind at 1. unfold when at 1. unfold closed. rewrite Hc. step.
  unfold bind at 1. unfold when at 1. rewrite Hi. step.
  unfold bind at 1. unfold when at 1. unfold mode. rewrite Hp, Hw. step.
  change ((0 =? 0) && true) with true. cbv beta iota.
  rewrite (open_read_ok f w d Hd).
  unfold_step.
  destruct size; step; rewrite ?position_set_data, ?Hp; reflexivity.
Qed.

(** [read] at position 0 of a handle without write capability whose name
    is no longer in the store. *)
Lemma read_reload_missing size f w :
  mode_in (_mode f) READ_MODES = true -> _closed f = false ->
  _in_iter f = false -> _position f = 0 ->
  mode_in (_mode f) WRITE_MODES = false ->
  _store w !! _name f = None ->
  read size f w
  = (Raise (IOError (Fmt "No such file or directory: %r" (_name f))), f, w).
Proof.
  intros Hm Hc Hi Hp Hw Hd. unfold read.
  unfold bind at 1. unfold self at 1.
  unfold bind at 1. unfold when at 1. unfold mode. rewrite Hm. step.
  unfold bind at 1. unfold when at 1. unfold closed. rewrite Hc. step.
  unfold bind at 1. unfold when at 1. rewrite Hi. step.
  unfold bind at 1. unfold when at 1. unfold mode. rewrite Hp, Hw. step.
  change ((0 =? 0) && true) with true. cbv beta iota.
  rewrite (open_read_missing f w Hd). reflexivity.
Qed.

End Steps.

(** ** Opening *)

Lemma init_for_write nm m w :
  nm <> "" -> m ∈ ["w"; "w+"] ->
  __init__ nm m w
  = (Ok tt, File nm m 0 false false (_fileno_counter w + 1) false 0 [],
     World (<[nm := []]> (_store w)) (_fileno_counter w + 1)).
Proof.
  intros Hnm Hm. apply String.eqb_neq in Hnm.
  each_mode Hm; unfold __init__, get_new_fileno; unfold_meth; simpl;
    rewrite Hnm; reflexivity.
Qed.

Lemma init_for_read nm m w d :
  nm <> "" -> m ∈ ["r"; "rU"] -> _store w !! nm = Some d ->
  __init__ nm m w
  = (Ok tt,
     File nm m 0 false false (_fileno_counter w + 1) false 0
          (replace d [CR; LF] [LF]),
     World (_store w) (_fileno_counter w + 1)).
Proof.
  intros Hnm Hm Hd. apply String.eqb_neq in Hnm.
  each_mode Hm; unfold __init__, get_new_fileno; unfold_meth; simpl;
    rewrite Hnm; simpl; rewrite (CheckForFile_Some _ _ _ Hd); simpl;
    rewrite Hd; reflexivity.
Qed.

(** ** C6: text written is text read back *)

(** Write [T] through a fresh handle opened in mode [wmode], close it,
    reopen the name in mode [rmode] and read everything: the outcomes of
    the four preparatory calls and of the final [read]. *)
Definition write_close_reopen_read (nm wmode rmode : string) (T : text)
    (w : world)
  : result unit * result unit * result unit * result unit * result text :=
  let opened := __init__ nm wmode w in
  let written := run (write T) opened in
  let closed_ := run close written in
  let reopened := __init__ nm rmode (globals closed_) in
  (outcome opened, outcome written, outcome closed_, outcome reopened,
   outcome (run (read None) reopened)).

Lemma slice_nil lo hi : slice [] lo hi = [].
Proof. unfold slice. rewrite drop_nil. apply take_nil. Qed.

(** C6: for every text [T] containing LF, writing [T] to a fresh handle
    opened in a write text mode (['w'] or ['w+']), closing it, opening the
    same name in a read text mode (['r'] or ['rU']) and reading all yields
    exactly [T]; every call on the way succeeds. *)
Theorem C6_text_round_trip (nm wmode rmode : string) (T : text) (w : world) :
  nm <> "" -> wmode ∈ ["w"; "w+"] -> rmode ∈ ["r"; "rU"] -> LF ∈ T ->
  write_close_reopen_read nm wmode rmode T w
  = (Ok tt, Ok tt, Ok tt, Ok tt, Ok T).
Proof.
  intros Hnm Hw Hr HT.
  assert (HTne : T <> []) by (intros ->; inversion HT).
  assert (Hcap : mode_in wmode WRITE_MODES = true)
    by (each_mode Hw; reflexivity).
  assert (Hrcap : mode_in rmode READ_MODES = true
                  /\ mode_in rmode WRITE_MODES = false)
    by (each_mode Hr; split; reflexivity).
  destruct Hrcap as [Hrd Hnw].
  pose proof (init_for_write nm wmode w Hnm Hw) as E1.
  set (f0 := File nm wmode 0 false false (_fileno_counter w + 1) false 0 [])
    in E1.
  set (w0 := World (<[nm := []]> (_store w)) (_fileno_counter w + 1)) in E1.
  set (T' := replace T [LF] [CR; LF]).
  assert (E2 : write T f0 w0
               = (Ok tt,
                  set_position (0 + len T') (set_data T' (set_softspace 0 f0)),
                  w0)).
  { rewrite write_ok by first [assumption | reflexivity].
    cbn [f0 _binary _position _data]. fold T'.
    rewrite !slice_nil, app_nil_l, app_nil_r. reflexivity. }
  set (f1 := set_position (0 + len T') (set_data T' (set_softspace 0 f0)))
    in E2.
  assert (E3 : close f1 w0
               = (Ok tt, set_closed true f1,
                  World (<[nm := T']> (_store w0)) (_fileno_counter w0))).
  { rewrite close_ok by reflexivity.
    change (_mode f1) with wmode. rewrite Hcap. reflexivity. }
  set (w1 := World (<[nm := T']> (_store w0)) (_fileno_counter w0)) in E3.
  assert (Hd : _store w1 !! nm = Some T') by apply lookup_insert_eq.
  pose proof (init_for_read nm rmode w1 T' Hnm Hr Hd) as E4.
  replace (replace T' [CR; LF] [LF]) with T in E4
    by (unfold T'; symmetry; apply replace_round_trip).
  set (f3 := File nm rmode 0 false false (_fileno_counter w1 + 1) false 0 T)
    in E4.
  set (w2 := World (_store w1) (_fileno_counter w1 + 1)) in E4.
  assert (E5 : outcome (read None f3 w2) = Ok T).
  { rewrite (read_reload None f3 w2 T')
      by first [assumption | reflexivity].
    cbn [f3 _binary negb]. unfold outcome. cbn [fst]. unfold T'.
    rewrite replace_round_trip, slice_whole. reflexivity. }
  unfold write_close_reopen_read, run.
  rewrite E1. cbn [outcome handle globals fst snd].
  rewrite E2. cbn [outcome handle globals fst snd].
  rewrite E3. cbn [outcome handle globals fst snd].
  rewrite E4. cbn [outcome handle globals fst snd].
  fold (outcome (read None f3 w2)). rewrite E5. reflexivity.
Qed.

Lemma C6_text_round_trip_witness :
  write_close_reopen_read "f" "w" "r" sample_text initial_world
  = (Ok tt, Ok tt, Ok tt, Ok tt, Ok sample_text).
Proof.
  apply C6_text_round_trip.
  - discriminate.
  - apply elem_of_cons. left. reflexivity.
  - apply elem_of_cons. left. reflexivity.
  - unfold sample_text. cbn [text_of list_ascii_of_string app].
    rewrite !elem_of_cons. tauto.
Defined.

(** ** C7: writing past the end pads with null units *)

Lemma times_nul_length n : length (times n [NUL]) = Z.to_nat n.
Proof.
  unfold times. induction (Z.to_nat n) as [| k IH]; [reflexivity |].
  cbn [replicate concat app length]. rewrite IH. reflexivity.
Qed.

(** [n * '\x00'] is [n] copies of the null unit, none when [n <= 0]. *)
Lemma times_nul_replicate n : times n [NUL] = replicate (Z.to_nat n) NUL.
Proof.
  unfold times. induction (Z.to_nat n) as [| k IH]; [reflexivity |].
  cbn [replicate concat app]. rewrite IH. reflexivity.
Qed.

(** The sparse-write scenario: open empty for reading and writing, seek to
    offset 10, write ["x"], seek back to 0 and read everything. *)
Definition sparse_write_scenario : result text * file * world :=
  run (read None)
    (run (seek 0 0)
       (run (write (text_of "x"))
          (run (seek 10 0) (__init__ "f" "w+" initial_world)))).

(** C7: a write of non-empty data on an open write-capable handle succeeds
    and moves the cursor past the stored data; when the cursor is at or
    beyond the end of the content, the new content is the old content, then
    as many null units as the cursor lies beyond the old end, then the
    stored data, so its length is the old cursor plus the length of the
    stored data; every unit of the old content beyond the end of the write
    keeps its place; and the scenario of seeking to 10 in an empty file and
    writing ["x"] reads back as ten null units followed by ["x"], eleven
    units in all. *)
Theorem C7_sparse_write (f : file) (w : world) (data : text) :
  mode_in (_mode f) WRITE_MODES = true -> _closed f = false ->
  data <> [] -> 0 <= _position f ->
  let stored := if _binary f then data else replace data [LF] [CR; LF] in
  let after := write data f w in
  outcome after = Ok tt /\
  _position (handle after) = _position f + len stored /\
  (len (_data f) <= _position f ->
   _data (handle after)
   = _data f
       ++ replicate (Z.to_nat (_position f) - length (_data f))%nat NUL
       ++ stored /\
   length (_data (handle after))
   = (Z.to_nat (_position f) + length stored)%nat) /\
  (forall i : nat,
     _position f + len stored <= Z.of_nat i ->
     _data (handle after) !! i = _data f !! i) /\
  outcome sparse_write_scenario
  = Ok [NUL; NUL; NUL; NUL; NUL; NUL; NUL; NUL; NUL; NUL; "x"%char].
Proof.
  intros Hm Hc Hd Hp stored after.
  unfold after. rewrite write_ok by assumption. fold stored.
  unfold outcome, handle. cbn [fst snd set_position set_data _data _position].
  rewrite slice_to by exact Hp.
  rewrite slice_from by (pose proof (len_nonneg stored); lia).
  split_all.
  - reflexivity.
  - reflexivity.
  - intros Hend. unfold len in Hend.
    rewrite take_ge by lia. rewrite drop_ge by (unfold len; lia).
    rewrite app_nil_r, times_nul_replicate.
    replace (Z.to_nat (_position f - len (_data f)))
      with (Z.to_nat (_position f) - length (_data f))%nat
      by (unfold len; lia).
    split; [reflexivity |].
    rewrite !length_app, length_replicate. lia.
  - intros i Hi.
    set (p := Z.to_nat (_position f)) in *.
    set (start := take p (_data f)).
    assert (Hstart : (length start <= p)%nat)
      by (unfold start; rewrite length_take; lia).
    assert (Hlen : (length (start ++ times (_position f - len start) [NUL]
                            ++ stored)
                    = p + length stored)%nat).
    { rewrite !length_app, times_nul_length. unfold len, p. lia. }
    rewrite !app_assoc. rewrite lookup_app_r; rewrite <- !app_assoc, Hlen;
      [| unfold len, p in *; lia].
    rewrite lookup_drop. f_equal. unfold len, p in *. lia.
  - vm_compute. reflexivity.
Qed.

(** On the handle of the scenario, empty and sought to 10, the write of
    ["x"] leaves ten null units followed by ["x"]. *)
Lemma C7_sparse_write_witness :
  let f := handle (run (seek 10 0) (__init__ "f" "w+" initial_world)) in
  let after := write (text_of "x") f initial_world in
  outcome after = Ok tt /\
  _position (handle after) = 11 /\
  _data (handle after)
  = [NUL; NUL; NUL; NUL; NUL; NUL; NUL; NUL; NUL; NUL; "x"%char] /\
  length (_data (handle after)) = 11%nat /\
  (forall i : nat,
     11 <= Z.of_nat i -> _data (handle after) !! i = _data f !! i) /\
  outcome sparse_write_scenario
  = Ok [NUL; NUL; NUL; NUL; NUL; NUL; NUL; NUL; NUL; NUL; "x"%char].
Proof.
  cbv zeta.
  destruct (C7_sparse_write
              (handle (run (seek 10 0) (__init__ "f" "w+" initial_world)))
              initial_world (text_of "x"))
    as (Hok & Hpos & Hpad & Hkeep & Hscenario).
  - vm_compute. reflexivity.
  - vm_compute. reflexivity.
  - discriminate.
  - vm_compute. discriminate.
  - destruct Hpad as [Hdata Hlen]; [vm_compute; discriminate |].
    split_all.
    + exact Hok.
    + exact Hpos.
    + exact Hdata.
    + exact Hlen.
    + exact Hkeep.
    + exact Hscenario.
Defined.

(** ** Lines *)

(** The index of the first occurrence of [c], as a natural number. *)
Fixpoint index_of (c : ascii) (s : text) : option nat :=
  match s with
  | [] => None
  | x :: t => if Ascii.eqb x c then Some O else option_map S (index_of c t)
  end.

(** The text [readline()] is about to return: the rest of the content up to
    and including the next LF, or all of it when there is none. *)
Definition next_line (f : file) : text :=
  let remaining := drop (Z.to_nat (_position f)) (_data f) in
  match index_of LF remaining with
  | Some k => take (S k) remaining
  | None => remaining
  end.

Ltac len_lia := unfold len in *; lia.

Section Lines.

Lemma find_from_index c s i :
  find_from c s i
  = match index_of c s with Some k => i + Z.of_nat k | None => -1 end.
Proof.
  revert i. induction s as [| x t IH]; intros i; [reflexivity |].
  cbn [find_from index_of]. destruct (Ascii.eqb x c).
  - cbn [Z.of_nat]. lia.
  - rewrite IH. destruct (index_of c t); cbn [option_map]; lia.
Qed.

Lemma find_index s c :
  find s c = match index_of c s with Some k => Z.of_nat k | None => -1 end.
Proof.
  unfold find. rewrite find_from_index. destruct (index_of c s); lia.
Qed.

Lemma index_of_lt c s k : index_of c s = Some k -> (k < length s)%nat.
Proof.
  revert k. induction s as [| x t IH]; intros k; [discriminate |].
  cbn [index_of length]. destruct (Ascii.eqb x c).
  - intros [= <-]. lia.
  - destruct (index_of c t) as [j |]; [| discriminate].
    intros [= <-]. specialize (IH j eq_refl). lia.
Qed.

Lemma index_of_drop_Some c s k n :
  index_of c s = Some k -> (n <= k)%nat ->
  index_of c (drop n s) = Some (k - n)%nat.
Proof.
  revert k n. induction s as [| x t IH]; intros k n; [discriminate |].
  destruct n as [| n]; [intros H _; rewrite drop_0, H; f_equal; lia |].
  cbn [index_of drop]. destruct (Ascii.eqb x c).
  - intros [= <-] Hn. lia.
  - destruct (index_of c t) as [j |]; [| discriminate].
    intros [= <-] Hn. rewrite (IH j n eq_refl) by lia. reflexivity.
Qed.

Lemma index_of_drop_None c s n :
  index_of c s = None -> index_of c (drop n s) = None.
Proof.
  revert n. induction s as [| x t IH]; intros n H.
  - rewrite drop_nil. reflexivity.
  - destruct n as [| n]; [exact H |].
    cbn [index_of] in H. cbn [drop]. destruct (Ascii.eqb x c); [discriminate |].
    destruct (index_of c t); [discriminate |]. apply IH. reflexivity.
Qed.

(** Before the end of the content the next line is non-empty and lies
    within the content. *)
Lemma next_line_bounds f :
  0 <= _position f < len (_data f) ->
  0 < len (next_line f) <= len (_data f) - _position f.
Proof.
  intros Hp. unfold next_line, len in *.
  set (rem := drop (Z.to_nat (_position f)) (_data f)).
  assert (Hrem : length rem = (length (_data f) - Z.to_nat (_position f))%nat)
    by apply length_drop.
  destruct (index_of LF rem) as [k |] eqn:E.
  - apply index_of_lt in E. rewrite length_take. lia.
  - lia.
Qed.

Lemma readline_all f w :
  mode_in (_mode f) WRITE_MODES = false ->
  0 <= _position f < len (_data f) ->
  readline None f w
  = (Ok (next_line f), set_position (_position f + len (next_line f)) f, w).
Proof.
  intros Hm Hp. unfold_step. rewrite Hm. step.
  replace (len (_data f) <=? _position f) with false
    by (symmetry; apply Z.leb_gt; len_lia).
  rewrite slice_from by len_lia. rewrite find_index. unfold next_line.
  set (rem := drop (Z.to_nat (_position f)) (_data f)).
  assert (Hrem : len rem = len (_data f) - _position f)
    by (unfold rem, len in *; rewrite length_drop; lia).
  destruct (index_of LF rem) as [k |] eqn:E.
  - replace (Z.of_nat k =? -1) with false by (symmetry; apply Z.eqb_neq; len_lia).
    step. apply index_of_lt in E.
    rewrite slice_to by len_lia.
    replace (Z.to_nat (Z.of_nat k + 1)) with (S k) by len_lia.
    do 2 f_equal. f_equal. unfold len. rewrite length_take. lia.
  - change (-1 =? -1) with true. step. do 2 f_equal. f_equal. lia.
Qed.

(** A non-negative [size] smaller than the next line cuts it. *)
Lemma readline_cut n f w :
  mode_in (_mode f) WRITE_MODES = false ->
  0 <= _position f < len (_data f) ->
  0 <= n < len (next_line f) ->
  readline (Some n) f w
  = (Ok (take (Z.to_nat n) (next_line f)), set_position (_position f + n) f,
     w).
Proof.
  intros Hm Hp Hn. unfold_step. rewrite Hm. step.
  replace (n <? 0) with false by (symmetry; apply Z.ltb_ge; len_lia). step.
  replace (len (_data f) <=? _position f) with false
    by (symmetry; apply Z.leb_gt; len_lia).
  rewrite slice_from by len_lia. rewrite find_index.
  unfold next_line in *.
  set (rem := drop (Z.to_nat (_position f)) (_data f)) in *.
  destruct (index_of LF rem) as [k |] eqn:E.
  - replace (Z.of_nat k =? -1) with false by (symmetry; apply Z.eqb_neq; len_lia).
    step. apply index_of_lt in E.
    rewrite !slice_to by len_lia.
    replace (Z.to_nat (Z.of_nat k + 1)) with (S k) by len_lia.
    replace (len (take (S k) rem) <=? n) with false
      by (symmetry; apply Z.leb_gt; len_lia).
    reflexivity.
  - change (-1 =? -1) with true. step.
    replace (len rem <? n) with false by (symmetry; apply Z.ltb_ge; len_lia).
    step. rewrite slice_to by len_lia.
    do 2 f_equal. f_equal. unfold len in *. rewrite length_take. lia.
Qed.

(** After a cut, the next line is the rest of the line that was cut. *)
Lemma next_line_after_cut n f :
  0 <= _position f -> 0 <= n < len (next_line f) ->
  next_line (set_position (_position f + n) f)
  = drop (Z.to_nat n) (next_line f).
Proof.
  intros Hp Hn. unfold next_line in *. cbn [set_position _position _data].
  replace (Z.to_nat (_position f + n))
    with (Z.to_nat (_position f) + Z.to_nat n)%nat by len_lia.
  rewrite <- drop_drop.
  set (rem := drop (Z.to_nat (_position f)) (_data f)) in *.
  destruct (index_of LF rem) as [k |] eqn:E.
  - pose proof (index_of_lt _ _ _ E) as Hk.
    unfold len in Hn. rewrite length_take in Hn.
    rewrite (index_of_drop_Some _ _ _ (Z.to_nat n) E) by len_lia.
    rewrite take_drop_commute. do 2 f_equal. lia.
  - rewrite (index_of_drop_None _ _ _ E). reflexivity.
Qed.

End Lines.

(** ** C8: [readline] line by line, and cut by [size] *)

(** Three [readline()] calls on a handle opened for reading on ["ab\ncd"]. *)
Definition first_readline : result text * file * world :=
  run (readline None) (__init__ "f" "r" sample_world).
Definition second_readline : result text * file * world :=
  run (readline None) first_readline.
Definition third_readline : result text * file * world :=
  run (readline None) second_readline.

(** C8: on a read-text handle on ["ab\ncd"] the first [readline()] returns
    ["ab\n"] and leaves the cursor at 3, the second returns ["cd"], the
    third returns the empty text without error; and on any handle without
    write capability whose cursor is inside the content, a [size] below the
    length of the line [readline()] would return cuts that line: the call
    returns its first [size] units, advances the cursor by [size] only, and
    the next [readline()] returns the rest of the line. *)
Theorem C8_readline_boundary_and_cut (f : file) (w : world) (size : Z)
    (line : text) :
  mode_in (_mode f) WRITE_MODES = false ->
  0 <= _position f < len (_data f) ->
  outcome (readline None f w) = Ok line ->
  0 <= size < len line ->
  (outcome first_readline = Ok (text_of "ab" ++ [LF]) /\
   _position (handle first_readline) = 3 /\
   outcome second_readline = Ok (text_of "cd") /\
   outcome third_readline = Ok []) /\
  let cut := readline (Some size) f w in
  outcome cut = Ok (take (Z.to_nat size) line) /\
  _position (handle cut) = _position f + size /\
  outcome (run (readline None) cut) = Ok (drop (Z.to_nat size) line).
Proof.
  intros Hm Hp Hline Hsize. split; [vm_compute; split_all; reflexivity |].
  rewrite readline_all in Hline by assumption.
  unfold outcome in Hline. cbn [fst] in Hline.
  injection Hline as <-.
  intros cut. unfold cut. rewrite readline_cut by assumption.
  unfold run, outcome, handle, globals. cbn [fst snd].
  split_all; [reflexivity | reflexivity |].
  pose proof (next_line_bounds f Hp) as Hb.
  rewrite readline_all
    by (cbn [set_position _mode _position _data]; first [assumption | lia]).
  cbn [fst]. rewrite <- next_line_after_cut by lia.
  cbn [set_position _position]. reflexivity.
Qed.

Lemma C8_readline_witness :
  (outcome first_readline = Ok (text_of "ab" ++ [LF]) /\
   _position (handle first_readline) = 3 /\
   outcome second_readline = Ok (text_of "cd") /\
   outcome third_readline = Ok []) /\
  let f := handle (__init__ "f" "r" sample_world) in
  let cut := readline (Some 2) f sample_world in
  outcome cut = Ok (take (Z.to_nat 2) (text_of "ab" ++ [LF])) /\
  _position (handle cut) = _position f + 2 /\
  outcome (run (readline None) cut)
  = Ok (drop (Z.to_nat 2) (text_of "ab" ++ [LF])).
Proof.
  apply (C8_readline_boundary_and_cut
           (handle (__init__ "f" "r" sample_world)) sample_world 2
           (text_of "ab" ++ [LF])).
  - vm_compute. reflexivity.
  - vm_compute. split; [discriminate | reflexivity].
  - vm_compute. reflexivity.
  - vm_compute. split; [discriminate | reflexivity].
Defined.

(** ** Iteration and direct reads *)

Section Iteration.

Lemma next_step f w :
  mode_in (_mode f) WRITE_MODES = false -> 0 <= _position f ->
  __next__ f w
  = if len (_data f) <=? _position f
    then (Raise StopIteration, set_in_iter true f, w)
    else (Ok (next_line f),
          set_position (_position f + len (next_line f)) (set_in_iter true f),
          w).
Proof.
  intros Hm Hp. unfold __next__.
  unfold bind at 1. unfold self at 1.
  unfold bind at 1. unfold when at 1. unfold mode. rewrite Hm.
  cbv beta iota. unfold ret at 1.
  unfold bind at 1. unfold update at 1.
  unfold bind at 1. unfold self at 1.
  unfold bind at 1. unfold when at 1.
  cbn [set_in_iter _data _position].
  destruct (len (_data f) <=? _position f) eqn:E; [reflexivity |].
  unfold ret at 1. cbv beta iota.
  apply Z.leb_gt in E.
  rewrite readline_all
    by (cbn [set_in_iter _mode _position _data]; first [assumption | lia]).
  reflexivity.
Qed.

Lemma read_while_iterating size f w :
  mode_in (_mode f) READ_MODES = true -> _closed f = false ->
  _in_iter f = true ->
  read size f w = (Raise mixing_iteration, f, w).
Proof. intros Hm Hc Hi. unfold_step. rewrite Hm, Hc, Hi. reflexivity. Qed.

Lemma seek_inv position whence f w :
  outcome (seek position whence f w) = Ok tt ->
  exists target,
    seek position whence f w
    = (Ok tt, set_position target (set_in_iter false f), w).
Proof.
  unfold_step.
  destruct ((0 <=? whence) && (whence <=? 2)); step; [| discriminate].
  match goal with
  | |- context [?t <? 0] => destruct (t <? 0); step; [discriminate |]
  end.
  intros _. eexists. reflexivity.
Qed.

Lemma read_succeeds size f w :
  mode_in (_mode f) READ_MODES = true -> _closed f = false ->
  _in_iter f = false -> is_Some (_store w !! _name f) ->
  succeeds (outcome (read size f w)).
Proof.
  intros Hm Hc Hi [d Hd].
  destruct ((_position f =? 0) && negb (mode_in (_mode f) WRITE_MODES))
    eqn:E.
  - apply andb_true_iff in E as [Hp Hw].
    apply Z.eqb_eq in Hp. apply negb_true_iff in Hw.
    rewrite (read_reload size f w d) by assumption. exact I.
  - rewrite read_no_reload by assumption. exact I.
Qed.

(** What [read] does on an open handle with read and without write
    capability that is not iterating: it fails only when its cursor is at 0
    and the name is gone from the store, and then with [IOError]. *)
Lemma read_outcome_cases size f w :
  mode_in (_mode f) READ_MODES = true -> _closed f = false ->
  _in_iter f = false -> mode_in (_mode f) WRITE_MODES = false ->
  if (_position f =? 0) && negb (bool_decide (is_Some (_store w !! _name f)))
  then outcome (read size f w)
       = Raise (IOError (Fmt "No such file or directory: %r" (_name f)))
  else succeeds (outcome (read size f w)).
Proof.
  intros Hm Hc Hi Hw. destruct (_position f =? 0) eqn:E0.
  - apply Z.eqb_eq in E0. destruct (_store w !! _name f) as [d |] eqn:Hd.
    + rewrite bool_decide_eq_true_2 by eauto. cbn [negb andb].
      rewrite (read_reload size f w d) by assumption. exact I.
    + rewrite bool_decide_eq_false_2 by (intros [x Hx]; discriminate).
      cbn [negb andb]. rewrite read_reload_missing by assumption.
      reflexivity.
  - cbn [andb]. rewrite read_no_reload
      by first [assumption | rewrite E0; reflexivity].
    exact I.
Qed.

Lemma read_not_refused size f w :
  mode_in (_mode f) READ_MODES = true -> _closed f = false ->
  _in_iter f = false -> mode_in (_mode f) WRITE_MODES = false ->
  outcome (read size f w) <> Raise mixing_iteration.
Proof.
  intros Hm Hc Hi Hw. pose proof (read_outcome_cases size f w Hm Hc Hi Hw) as H.
  destruct ((_position f =? 0)
            && negb (bool_decide (is_Some (_store w !! _name f)))).
  - rewrite H. discriminate.
  - destruct (outcome (read size f w)); [discriminate | destruct H].
Qed.

End Iteration.

(** ** C9: iteration excludes direct reads until a seek *)

(** C9: on an open handle, once an iteration step has taken place (the
    call did not fail with the bad-descriptor error), a direct [read] raises
    the [ValueError] about mixing iteration and read methods.  A [seek] on
    the same handle with [whence] 0, 1 or 2 and a target that is not
    negative then succeeds and clears the iteration flag, and [read] is no
    longer refused: it succeeds, except when the cursor has been put at 0
    and the name of the handle has been removed from the store, where the
    content cannot be loaded again and [read] raises [IOError]. *)
Theorem C9_iteration_blocks_read_until_seek (f : file) (w : world)
    (size : option Z) (position whence : Z) :
  _mode f ∈ ALL_MODES -> _closed f = false -> 0 <= _position f ->
  outcome (__next__ f w) <> Raise bad_descriptor ->
  let stepped := __next__ f w in
  let target := if whence =? 1 then _position (handle stepped) + position
                else if whence =? 2 then len (_data (handle stepped)) + position
                else position in
  0 <= whence <= 2 -> 0 <= target ->
  let sought := run (seek position whence) stepped in
  outcome (run (read size) stepped)
  = Raise (ValueError
             (Msg "Mixing iteration and read methods would lose data")) /\
  outcome sought = Ok tt /\
  _in_iter (handle sought) = false /\
  outcome (run (read size) sought)
  <> Raise (ValueError
              (Msg "Mixing iteration and read methods would lose data")) /\
  (if (target =? 0) && negb (bool_decide (is_Some (_store w !! _name f)))
   then outcome (run (read size) sought)
        = Raise (IOError (Fmt "No such file or directory: %r" (_name f)))
   else succeeds (outcome (run (read size) sought))).
Proof.
  cbv zeta. intros Hall Hc Hp Hstep.
  assert (Hw : mode_in (_mode f) WRITE_MODES = false).
  { destruct (mode_in (_mode f) WRITE_MODES) eqn:E; [| reflexivity].
    apply mode_in_true in E. rewrite (next_bad_descriptor f w E) in Hstep.
    exfalso. apply Hstep. reflexivity. }
  assert (Hr : mode_in (_mode f) READ_MODES = true).
  { apply mode_in_true. apply not_write_is_read; [exact Hall |].
    apply mode_in_false. exact Hw. }
  assert (Hshape : exists r p,
             __next__ f w = (r, set_position p (set_in_iter true f), w)).
  { rewrite next_step by assumption.
    destruct (len (_data f) <=? _position f).
    - exists (Raise StopIteration), (_position f). reflexivity.
    - eexists _, _. reflexivity. }
  destruct Hshape as (r & p & Hshape). rewrite Hshape.
  unfold run, handle, globals. cbn [fst snd].
  set (f1 := set_position p (set_in_iter true f)).
  intros Hwh Ht.
  pose proof (seek_ok position whence f1 w Hwh) as Hseek. cbv zeta in Hseek.
  rewrite Hseek by exact Ht. clear Hseek. cbn [fst snd].
  set (target := if whence =? 1 then _position f1 + position
                 else if whence =? 2 then len (_data f1) + position
                 else position) in *.
  set (f2 := set_position target (set_in_iter false f1)).
  split_all.
  - rewrite read_while_iterating by first [assumption | reflexivity].
    reflexivity.
  - reflexivity.
  - reflexivity.
  - apply (read_not_refused size f2 w); first [assumption | reflexivity].
  - apply (read_outcome_cases size f2 w); first [assumption | reflexivity].
Qed.

(** On a handle opened for reading on ["ab\ncd"]: after one [__next__] the
    [read] is refused, [seek(0)] succeeds and the [read] that follows
    succeeds. *)
Lemma C9_iteration_witness :
  let stepped := __next__ (handle (__init__ "f" "r" sample_world))
                   sample_world in
  let sought := run (seek 0 0) stepped in
  outcome (run (read None) stepped)
  = Raise (ValueError
             (Msg "Mixing iteration and read methods would lose data")) /\
  outcome sought = Ok tt /\
  _in_iter (handle sought) = false /\
  outcome (run (read None) sought)
  <> Raise (ValueError
              (Msg "Mixing iteration and read methods would lose data")) /\
  succeeds (outcome (run (read None) sought)).
Proof.
  cbv zeta.
  destruct (C9_iteration_blocks_read_until_seek
              (handle (__init__ "f" "r" sample_world)) sample_world None 0 0)
    as (Hrefused & Hseek & Hflag & Hnot & Hread).
  - apply mode_in_true. vm_compute. reflexivity.
  - vm_compute. reflexivity.
  - vm_compute. discriminate.
  - vm_compute. discriminate.
  - lia.
  - vm_compute. discriminate.
  - split_all; assumption.
Defined.

(** The name removed between the iteration step and the [seek]: open
    ["f"] for reading, take one step, delete ["f"] from the store, seek to
    0 and read. *)
Definition removed_stepped : result text * file * world :=
  run __next__ (__init__ "f" "r" sample_world).
Definition removed_world : result unit * world :=
  backend.DeleteFile "f" (globals removed_stepped).
Definition removed_sought : result unit * file * world :=
  seek 0 0 (handle removed_stepped) removed_world.2.
Definition removed_read : result text * file * world :=
  run (read None) removed_sought.

(** C9 as stated fails: the iteration step has taken place and the [seek]
    has succeeded and cleared the flag, yet the [read] that follows does not
    succeed; it raises [IOError], the name being gone from the store. *)
Lemma C9_read_after_seek_can_fail :
  outcome removed_stepped = Ok (text_of "ab" ++ [LF]) /\
  removed_world.1 = Ok tt /\
  outcome removed_sought = Ok tt /\
  _in_iter (handle removed_sought) = false /\
  outcome removed_read
  = Raise (IOError (Fmt "No such file or directory: %r" "f")).
Proof. vm_compute. split_all; reflexivity. Qed.

(** ** Draining the iteration *)

Section Drain.

Lemma slice_beyond p hi (s : text) :
  0 <= p -> len s <= p -> slice s (Some p) hi = [].
Proof.
  intros Hp Hs. unfold slice. rewrite slice_index_nonneg by exact Hp.
  rewrite drop_ge by len_lia. apply take_nil.
Qed.

Lemma next_line_split f :
  0 <= _position f ->
  next_line f
    ++ drop (Z.to_nat (_position f + len (next_line f))) (_data f)
  = drop (Z.to_nat (_position f)) (_data f).
Proof.
  intros Hp.
  replace (Z.to_nat (_position f + len (next_line f)))
    with (Z.to_nat (_position f) + length (next_line f))%nat by len_lia.
  rewrite <- drop_drop. unfold next_line.
  set (rem := drop (Z.to_nat (_position f)) (_data f)).
  destruct (index_of LF rem) as [k |] eqn:E.
  - apply index_of_lt in E. rewrite length_take.
    replace (S k `min` length rem)%nat with (S k) by lia.
    apply take_drop.
  - rewrite drop_ge by lia. apply app_nil_r.
Qed.

(** With more fuel than units left, [list(self)] ends by [StopIteration]:
    it returns the remaining content cut into lines and leaves the cursor at
    or beyond the end. *)
Lemma list_self_drains w fuel : forall f,
  mode_in (_mode f) WRITE_MODES = false -> 0 <= _position f ->
  (Z.to_nat (len (_data f) - _position f) < fuel)%nat ->
  exists lines p,
    list_self fuel f w
    = Some (Ok lines, set_position p (set_in_iter true f), w) /\
    len (_data f) <= p /\ _position f <= p /\
    concat lines = drop (Z.to_nat (_position f)) (_data f).
Proof.
  induction fuel as [| fuel IH]; intros f Hm Hp Hfuel; [lia |].
  cbn [list_self]. rewrite next_step by assumption.
  destruct (len (_data f) <=? _position f) eqn:E.
  - apply Z.leb_le in E. exists [], (_position f). split_all.
    + destruct f; reflexivity.
    + exact E.
    + lia.
    + rewrite drop_ge by len_lia. reflexivity.
  - apply Z.leb_gt in E.
    pose proof (next_line_bounds f (conj Hp E)) as Hb.
    set (f1 := set_position (_position f + len (next_line f))
                 (set_in_iter true f)).
    destruct (IH f1) as (lines & p & Hl & Hend & Hle & Hcat).
    + exact Hm.
    + cbn [f1 set_position _position]. lia.
    + cbn [f1 set_position set_in_iter _position _data]. lia.
    + rewrite Hl. exists (next_line f :: lines), p.
      cbn [f1 set_position set_in_iter _position _data] in *.
      split_all.
      * reflexivity.
      * exact Hend.
      * lia.
      * cbn [concat]. rewrite Hcat. apply next_line_split. exact Hp.
Qed.

End Drain.

(** ** C10: [readlines] re-enables direct reads *)

(** C10: on a text handle opened for reading only (mode ['r'] or ['rU']),
    whatever its iteration flag, [readlines()] with more fuel than units of
    content returns the remaining lines in order and leaves the
    in-iteration flag cleared, so the direct [read()] that follows is not
    refused for iteration, no [seek] being involved.  On an open handle that
    [read()] returns the empty text when the cursor is beyond 0, and
    otherwise, the buffer being empty, whatever the store holds for the
    name; in particular it returns the empty text whenever the content of
    the handle is what the store holds. *)
Theorem C10_readlines_clears_in_iter (f : file) (w : world) (fuel : nat) :
  _mode f ∈ ["r"; "rU"] -> 0 <= _position f ->
  (length (_data f) < fuel)%nat ->
  exists lines f',
    readlines fuel None f w = Some (Ok lines, f', w) /\
    concat lines = drop (Z.to_nat (_position f)) (_data f) /\
    _in_iter f' = false /\
    outcome (read None f' w) <> Raise mixing_iteration /\
    outcome (read None f' w)
    = (if _closed f then Raise closed_file
       else if 0 <? _position f' then Ok []
       else match _store w !! _name f with
            | Some d => Ok (if _binary f then d else replace d [CR; LF] [LF])
            | None =>
                Raise (IOError (Fmt "No such file or directory: %r"
                                  (_name f)))
            end) /\
    (_closed f = false ->
     0 < _position f'
     \/ (exists d, _store w !! _name f = Some d
                   /\ _data f
                      = (if _binary f then d else replace d [CR; LF] [LF])) ->
     outcome (read None f' w) = Ok []).
Proof.
  intros Hm Hp Hfuel.
  assert (Hrw : mode_in (_mode f) READ_MODES = true
                /\ mode_in (_mode f) WRITE_MODES = false).
  { revert Hm. generalize (_mode f). intros m Hm.
    each_mode Hm; split; reflexivity. }
  destruct Hrw as [Hr Hw].
  destruct (list_self_drains w fuel f Hw Hp)
    as (lines & p & Hl & Hend & Hle & Hcat); [len_lia |].
  set (f' := set_in_iter false (set_position p (set_in_iter true f))).
  assert (Hexact :
            outcome (read None f' w)
            = (if _closed f then Raise closed_file
               else if 0 <? p then Ok []
               else match _store w !! _name f with
                    | Some d =>
                        Ok (if _binary f then d
                            else replace d [CR; LF] [LF])
                    | None =>
                        Raise (IOError (Fmt "No such file or directory: %r"
                                          (_name f)))
                    end)).
  { destruct (_closed f) eqn:Hc.
    - apply read_after_close; [exact Hc |]. apply mode_in_true. exact Hr.
    - destruct (0 <? p) eqn:E.
      + apply Z.ltb_lt in E.
        rewrite read_no_reload
          by first [assumption | reflexivity
                   | apply andb_false_iff; left; apply Z.eqb_neq;
                     cbn [f' set_in_iter set_position _position]; lia].
        cbn [f' set_position set_in_iter _position _data].
        unfold outcome. cbn [fst].
        rewrite slice_beyond by lia. reflexivity.
      + apply Z.ltb_ge in E. assert (p = 0) as -> by lia.
        assert (Hnil : _data f = []).
        { destruct (_data f); [reflexivity |]. unfold len in Hend.
          cbn [length] in Hend. lia. }
        destruct (_store w !! _name f) as [d |] eqn:Hd.
        * rewrite (read_reload None f' w d)
            by first [assumption | reflexivity].
          cbn [f' set_position set_in_iter _binary].
          unfold outcome. cbn [fst]. rewrite slice_whole.
          destruct (_binary f); reflexivity.
        * rewrite read_reload_missing by first [assumption | reflexivity].
          reflexivity. }
  exists lines, f'. split_all.
  - unfold readlines, mode. rewrite Hw, Hl. reflexivity.
  - exact Hcat.
  - reflexivity.
  - rewrite Hexact. destruct (_closed f); [discriminate |].
    destruct (0 <? p); [discriminate |].
    destruct (_store w !! _name f); discriminate.
  - exact Hexact.
  - intros Hc Hcase. rewrite Hexact, Hc.
    cbn [f' set_in_iter set_position _position] in Hcase.
    destruct (0 <? p) eqn:E; [reflexivity |].
    apply Z.ltb_ge in E. destruct Hcase as [Hpos | (d & Hd & Hsync)]; [lia |].
    assert (Hnil : _data f = []).
    { destruct (_data f); [reflexivity |]. unfold len in Hend.
      cbn [length] in Hend. lia. }
    rewrite Hd, <- Hsync, Hnil. reflexivity.
Qed.

(** On a handle opened for reading on ["ab\ncd"], [readlines] returns its
    two lines, clears the flag, and the [read()] that follows returns the
    empty text. *)
Lemma C10_readlines_witness :
  exists f',
    readlines 6 None (handle (__init__ "f" "r" sample_world)) sample_world
    = Some (Ok [text_of "ab" ++ [LF]; text_of "cd"], f', sample_world) /\
    _in_iter f' = false /\
    outcome (read None f' sample_world) <> Raise mixing_iteration /\
    outcome (read None f' sample_world) = Ok [].
Proof.
  destruct (C10_readlines_clears_in_iter
              (handle (__init__ "f" "r" sample_world)) sample_world 6)
    as (lines & f' & Hlines & Hcat & Hflag & Hnot & Hexact & Hempty).
  - apply elem_of_cons. left. reflexivity.
  - vm_compute. discriminate.
  - vm_compute. lia.
  - exists f'. split_all.
    + rewrite Hlines. vm_compute in Hlines.
      injection Hlines as <- _. reflexivity.
    + exact Hflag.
    + exact Hnot.
    + apply Hempty; [reflexivity |]. right. exists sample_text.
      split; reflexivity.
Defined.

(** A reader out of step with the store: ["e"] is empty when it is opened
    for reading; a second handle then writes ["x"] to it and closes; the
    reader calls [readlines] and then [read]. *)
Definition stale_reader : result unit * file * world :=
  __init__ "e" "r" (World (<["e" := []]> ∅) 2).
Definition rewritten : result unit * file * world :=
  run close
    (run (write (text_of "x")) (__init__ "e" "w" (globals stale_reader))).
Definition stale_readlines : option (result (list text) * file * world) :=
  readlines 1 None (handle stale_reader) (globals rewritten).

(** C10 as stated fails: [readlines] returns, with no line and the flag
    cleared, and the [read()] that follows is permitted, but it does not
    return the empty text: the cursor being at 0, it returns what the store
    now holds. *)
Lemma C10_read_after_readlines_not_empty :
  outcome stale_reader = Ok tt /\
  outcome rewritten = Ok tt /\
  match stale_readlines with
  | Some (Ok lines, f', w') =>
      lines = [] /\ _in_iter f' = false /\
      outcome (read None f' w') = Ok (text_of "x")
  | _ => False
  end.
Proof. vm_compute. split_all; reflexivity. Qed.

(** * Further properties of the handle and the backend *)

(** ** The rest of the handle's interface *)

(** [file.fileno], [file.isatty], [file.xreadlines] and the context-manager
    and finalizer hooks. *)
Definition fileno : M Z := f <- self ;; ret (_fileno f).
Definition isatty : M bool := ret false.
Definition xreadlines : M file := self.
Definition __enter__ : M file := self.
Definition __exit__ : M unit := close.
Definition __del__ : M unit := close.


(** The [softspace] property. *)
Definition _get_softspace : M Z := f <- self ;; ret (_softspace f).
Definition _set_softspace (value : Z) : M unit :=
  value <- _check_int_argument value ;; update (set_softspace value).

(** The operations that save to the backend. *)
Definition commits (o : operation) : bool :=
  match o with
  | OpClose | OpFlush | OpTruncate _ => true
  | _ => false
  end.

(** ** The backend contract *)

(** X1: [SaveFile] then [LoadFile] returns what was saved, [CheckForFile] then
    answers true, and every other name is left as it was. *)
Theorem backend_save_load (nm : string) (data : text) (w : world) :
  let w' := (backend.SaveFile nm data w).2 in
  (backend.SaveFile nm data w).1 = Ok tt /\
  backend.LoadFile nm w' = (Ok data, w') /\
  backend.CheckForFile nm w' = true /\
  (forall other, other <> nm ->
     (backend.LoadFile other w').1 = (backend.LoadFile other w).1 /\
     backend.CheckForFile other w' = backend.CheckForFile other w).
Proof.
  unfold backend.SaveFile, backend.LoadFile, backend.CheckForFile.
  cbn [fst snd _store]. split_all.
  - reflexivity.
  - rewrite lookup_insert_eq. reflexivity.
  - rewrite lookup_insert_eq. apply bool_decide_eq_true. eauto.
  - intros other Hne. rewrite lookup_insert_ne by congruence.
    split; [| reflexivity]. destruct (_store w !! other); reflexivity.
Qed.

(** X2: [DeleteFile] succeeds exactly on a name the store holds, raising
    [KeyError] and changing nothing otherwise; afterwards the name is
    absent, [LoadFile] raises [KeyError], and other names are untouched. *)
Theorem backend_delete (nm : string) (w : world) :
  let w' := (backend.DeleteFile nm w).2 in
  (backend.DeleteFile nm w).1
  = (if backend.CheckForFile nm w then Ok tt else Raise (KeyError nm)) /\
  (backend.CheckForFile nm w = false -> w' = w) /\
  backend.CheckForFile nm w' = false /\
  backend.LoadFile nm w' = (Raise (KeyError nm), w') /\
  (forall other, other <> nm ->
     backend.CheckForFile other w' = backend.CheckForFile other w).
Proof.
  unfold backend.DeleteFile, backend.LoadFile, backend.CheckForFile.
  destruct (_store w !! nm) as [d |] eqn:E; cbn [fst snd _store].
  - split_all.
    + rewrite bool_decide_eq_true_2 by eauto. reflexivity.
    + intros H. apply bool_decide_eq_false in H. exfalso. apply H. eauto.
    + rewrite lookup_delete_eq. apply bool_decide_eq_false.
      intros [x Hx]. discriminate.
    + rewrite lookup_delete_eq. reflexivity.
    + intros other Hne. rewrite lookup_delete_ne by congruence. reflexivity.
  - assert (Hno : bool_decide (is_Some (@None text)) = false)
      by (apply bool_decide_eq_false; intros [x Hx]; discriminate).
    split_all.
    + rewrite Hno. reflexivity.
    + reflexivity.
    + rewrite E. exact Hno.
    + rewrite E. reflexivity.
    + reflexivity.
Qed.

(** ** Closing *)

(** X3: [close] is idempotent: a second [close], the context-manager exit or
    the finalizer after a [close] returns normally and leaves the handle and
    the store exactly as the first [close] left them. *)
Theorem close_idempotent (f : file) (w : world) :
  run close (close f w) = close f w /\
  run __exit__ (close f w) = close f w /\
  run __del__ (close f w) = close f w /\
  _closed (handle (close f w)) = true.
Proof.
  unfold __exit__, __del__.
  assert (H : run close (close f w) = close f w
              /\ _closed (handle (close f w)) = true).
  { unfold_step. destruct (_closed f) eqn:Hc; step.
    - rewrite Hc. split; reflexivity.
    - destruct (mode_in (_mode f) WRITE_MODES); step; split; reflexivity. }
  destruct H as [H1 H2]. split_all; assumption.
Qed.

(** ** What no operation changes *)

Section Invariants.

Lemma write_each_world sequence f w :
  globals (write_each sequence f w) = w.
Proof.
  revert f w. induction sequence as [| line rest IH]; intros f w;
    [reflexivity |].
  cbn [write_each]. unfold bind.
  assert (Hw : globals (write line f w) = w)
    by (unfold_meth; cases; reflexivity).
  destruct (write line f w) as [[[] f'] w']; unfold globals in *;
    cbn [snd] in *; subst w'; [apply IH | reflexivity].
Qed.

Lemma write_identity data f w :
  let f' := handle (write data f w) in
  _name f' = _name f /\ _mode f' = _mode f /\ _binary f' = _binary f /\
  _fileno f' = _fileno f.
Proof. cbv zeta. unfold_meth. cases; split_all; reflexivity. Qed.

Lemma write_each_identity sequence f w :
  let f' := handle (write_each sequence f w) in
  _name f' = _name f /\ _mode f' = _mode f /\ _binary f' = _binary f /\
  _fileno f' = _fileno f.
Proof.
  revert f w. induction sequence as [| line rest IH]; intros f w; cbv zeta;
    [split_all; reflexivity |].
  cbn [write_each]. unfold bind.
  pose proof (write_identity line f w) as Hw. cbv zeta in Hw.
  destruct (write line f w) as [[[] f'] w']; unfold handle in *;
    cbn [fst snd] in *; [| exact Hw].
  specialize (IH f' w'). cbv zeta in *. unfold handle in IH.
  destruct Hw as (H1 & H2 & H3 & H4). destruct IH as (I1 & I2 & I3 & I4).
  split_all; congruence.
Qed.

End Invariants.

(** X4: The store changes only through [close], [flush] and [truncate]: every
    other operation, whatever its outcome, leaves the process-wide state as
    it found it, so writes stay in the handle's private copy until they are
    committed. *)
Theorem only_commits_change_the_store (o : operation) (f : file) (w : world) :
  commits o = false -> globals (perform o f w) = w.
Proof.
  intros Ho. destruct o; try discriminate; cbn [perform]; unfold forget;
    try (unfold_meth; cases; reflexivity).
  unfold writelines, bind, self, when.
  destruct (negb (mode_in (mode f) WRITE_MODES)); cbn [raise ret];
    [reflexivity |].
  apply write_each_world.
Qed.

Lemma only_commits_change_the_store_witness :
  globals (perform (OpWrite (text_of "x"))
             (handle (__init__ "f" "w" sample_world)) initial_world)
  = initial_world.
Proof.
  apply (only_commits_change_the_store (OpWrite (text_of "x"))). reflexivity.
Defined.

Lemma perform_identity o f w :
  let f' := handle (perform o f w) in
  _name f' = _name f /\ _mode f' = _mode f /\ _binary f' = _binary f /\
  _fileno f' = _fileno f.
Proof.
  cbv zeta. destruct o; cbn [perform]; unfold forget;
    try (unfold_meth; cases; split_all; reflexivity).
  unfold writelines, bind, self, when.
  destruct (negb (mode_in (mode f) WRITE_MODES)); cbn [raise ret];
    [split_all; reflexivity |].
  apply write_each_identity.
Qed.

(** X5: The name, the mode, the binary flag and the descriptor of a handle are
    fixed: no operation changes them, whatever its outcome. *)
Theorem identity_is_immutable (o : operation) (f : file) (w : world) :
  let f' := handle (perform o f w) in
  _name f' = _name f /\ _mode f' = _mode f /\ _binary f' = _binary f /\
  _fileno f' = _fileno f.
Proof. exact (perform_identity o f w). Qed.

(** ** The cursor never goes negative *)

(** Case analysis that keeps texts and integers folded. *)
Ltac scases := repeat (step; case_match; simplify_eq); step.

Ltac bool_facts :=
  repeat match goal with
    | H : (_ <? _) = false |- _ => apply Z.ltb_ge in H
    | H : (_ <? _) = true |- _ => apply Z.ltb_lt in H
    | H : (_ <=? _) = false |- _ => apply Z.leb_gt in H
    | H : (_ <=? _) = true |- _ => apply Z.leb_le in H
    | H : (_ =? _) = false |- _ => apply Z.eqb_neq in H
    | H : (_ =? _) = true |- _ => apply Z.eqb_eq in H
    end.

Section Cursor.

Lemma find_lower s c : -1 <= find s c.
Proof. rewrite find_index. destruct (index_of c s); lia. Qed.

Lemma write_position data f w :
  0 <= _position f -> 0 <= _position (handle (write data f w)).
Proof.
  intros Hp. unfold_meth. scases; try assumption;
    match goal with |- context [len ?s] => pose proof (len_nonneg s) end;
    lia.
Qed.

Lemma write_each_position sequence f w :
  0 <= _position f -> 0 <= _position (handle (write_each sequence f w)).
Proof.
  revert f w. induction sequence as [| line rest IH]; intros f w Hp;
    [exact Hp |].
  cbn [write_each]. unfold bind.
  pose proof (write_position line f w Hp) as Hw.
  destruct (write line f w) as [[[] f'] w']; unfold handle in *;
    cbn [fst snd] in *; [apply IH; exact Hw | exact Hw].
Qed.

Lemma readline_position size f w :
  0 <= _position f -> 0 <= _position (handle (readline size f w)).
Proof.
  intros Hp. unfold_meth. scases; bool_facts; try assumption;
    try apply len_nonneg;
    repeat match goal with
      | |- context [len ?s] =>
          lazymatch goal with
          | _ : 0 <= len s |- _ => fail
          | _ => pose proof (len_nonneg s)
          end
      | |- context [find ?s ?c] =>
          lazymatch goal with
          | _ : -1 <= find s c |- _ => fail
          | _ => pose proof (find_lower s c)
          end
      end; lia.
Qed.

Lemma forget_handle {A} (c : M A) f w :
  handle (forget c f w) = handle (c f w).
Proof.
  unfold forget, bind, ret. destruct (c f w) as [[[] f'] w']; reflexivity.
Qed.

Lemma forget_globals {A} (c : M A) f w :
  globals (forget c f w) = globals (c f w).
Proof.
  unfold forget, bind, ret. destruct (c f w) as [[[] f'] w']; reflexivity.
Qed.

Lemma next_unfold f w :
  __next__ f w
  = if mode_in (_mode f) WRITE_MODES then (Raise bad_descriptor, f, w)
    else if len (_data f) <=? _position f
         then (Raise StopIteration, set_in_iter true f, w)
         else readline None (set_in_iter true f) w.
Proof.
  unfold __next__, bind, self, when, update, mode.
  destruct (mode_in (_mode f) WRITE_MODES); cbn [raise ret];
    [reflexivity |].
  cbn [set_in_iter _data _position].
  destruct (len (_data f) <=? _position f); reflexivity.
Qed.

End Cursor.

(** X6: A cursor that is not negative stays so: after any operation, whatever
    its outcome, the position of the handle is still at least 0. *)
Theorem position_stays_nonnegative (o : operation) (f : file) (w : world) :
  0 <= _position f -> 0 <= _position (handle (perform o f w)).
Proof.
  intros Hp. destruct o; cbn [perform].
  - (* read *)
    rewrite forget_handle. unfold_meth. scases; bool_facts; try assumption;
      match goal with |- context [len ?s] => pose proof (len_nonneg s) end;
      lia.
  - (* write *)
    apply write_position. exact Hp.
  - (* writelines *)
    unfold writelines, bind, self, when.
    destruct (negb (mode_in (mode f) WRITE_MODES)); cbn [raise ret];
      [exact Hp |].
    apply write_each_position. exact Hp.
  - (* close *) unfold_meth. scases; assumption.
  - (* seek *) unfold_meth. scases; bool_facts; first [assumption | lia].
  - (* tell *) rewrite forget_handle. exact Hp.
  - (* flush *) unfold_meth. scases; assumption.
  - (* readline *)
    rewrite forget_handle. apply readline_position. exact Hp.
  - (* next *)
    rewrite forget_handle, next_unfold.
    destruct (mode_in (_mode f) WRITE_MODES); [exact Hp |].
    destruct (len (_data f) <=? _position f); [exact Hp |].
    apply readline_position. exact Hp.
  - (* truncate *) unfold_meth. scases; assumption.
Qed.

Lemma position_stays_nonnegative_witness :
  0 <= _position
         (handle (perform (OpSeek (-1) 1)
                    (handle (__init__ "f" "r" sample_world)) sample_world)).
Proof.
  apply (position_stays_nonnegative (OpSeek (-1) 1)). vm_compute.
  discriminate.
Defined.

(** ** Handles and the store *)

Section Store.

(** The process-wide state after an operation is the one before it, or the
    one before it with the handle's own entry overwritten. *)
Lemma perform_globals_shape o f w :
  globals (perform o f w) = w
  \/ exists d, globals (perform o f w)
               = World (<[_name f := d]> (_store w)) (_fileno_counter w).
Proof.
  destruct o; cbn [perform]; rewrite ?forget_globals;
    try (left; unfold_meth; cases; reflexivity).
  - left. unfold writelines, bind, self, when.
    destruct (negb (mode_in (mode f) WRITE_MODES)); cbn [raise ret];
      [reflexivity |].
    apply write_each_world.
  - unfold_meth. scases; first [left; reflexivity | right; eexists; reflexivity].
  - unfold_meth. scases; first [left; reflexivity | right; eexists; reflexivity].
  - unfold_meth. scases; first [left; reflexivity | right; eexists; reflexivity].
Qed.

End Store.

(** X7: A handle reaches no entry but its own: whatever the operation and its
    outcome, the entry of every other name is as before, and no descriptor
    is allocated. *)
Theorem operations_touch_only_own_entry (o : operation) (f : file)
    (w : world) (k : string) :
  k <> _name f ->
  _store (globals (perform o f w)) !! k = _store w !! k
  /\ _fileno_counter (globals (perform o f w)) = _fileno_counter w.
Proof.
  intros Hk. destruct (perform_globals_shape o f w) as [-> | [d ->]];
    [split; reflexivity |].
  cbn [_store _fileno_counter]. split; [| reflexivity].
  apply lookup_insert_ne. congruence.
Qed.

Lemma operations_touch_only_own_entry_witness :
  _store (globals (perform OpClose (handle (__init__ "g" "w" sample_world))
                     sample_world)) !! "f"
  = _store sample_world !! "f"
  /\ _fileno_counter
       (globals (perform OpClose (handle (__init__ "g" "w" sample_world))
                   sample_world))
     = _fileno_counter sample_world.
Proof.
  apply (operations_touch_only_own_entry OpClose). vm_compute. discriminate.
Defined.

(** X8: No operation on a handle removes an entry of the store: a name that is
    present before the operation is present after it. *)
Theorem entries_are_never_removed (o : operation) (f : file) (w : world)
    (k : string) :
  backend.CheckForFile k w = true ->
  backend.CheckForFile k (globals (perform o f w)) = true.
Proof.
  unfold backend.CheckForFile. rewrite !bool_decide_eq_true.
  intros Hk. destruct (perform_globals_shape o f w) as [-> | [d ->]];
    [exact Hk |].
  cbn [_store]. destruct (decide (_name f = k)) as [-> | Hne].
  - rewrite lookup_insert_eq. eexists; reflexivity.
  - rewrite lookup_insert_ne by exact Hne. exact Hk.
Qed.

Lemma entries_are_never_removed_witness :
  backend.CheckForFile "f"
    (globals (perform (OpTruncate (Some 0))
                (handle (__init__ "f" "w" sample_world)) sample_world))
  = true.
Proof.
  apply (entries_are_never_removed (OpTruncate (Some 0))). reflexivity.
Defined.

(** ** Opening a name *)

(** X9: Every construction of a handle, successful or not and whatever the name
    and the mode, takes exactly one new descriptor: the handle carries the
    successor of the counter, and the counter is left at that value.  So
    two handles built one after the other never share a descriptor. *)
Theorem every_open_takes_a_descriptor (nm1 m1 nm2 m2 : string) (w : world) :
  let first := __init__ nm1 m1 w in
  let second := __init__ nm2 m2 (globals first) in
  _fileno (handle first) = _fileno_counter w + 1
  /\ _fileno_counter (globals first) = _fileno_counter w + 1
  /\ _fileno (handle second) = _fileno (handle first) + 1.
Proof.
  assert (H : forall nm m w0,
             _fileno (handle (__init__ nm m w0)) = _fileno_counter w0 + 1
             /\ _fileno_counter (globals (__init__ nm m w0))
                = _fileno_counter w0 + 1).
  { intros nm m w0. unfold __init__, get_new_fileno. unfold_meth.
    scases; split; reflexivity. }
  cbv zeta. destruct (H nm1 m1 w) as [H1 H2].
  destruct (H nm2 m2 (globals (__init__ nm1 m1 w))) as [H3 _].
  split_all; congruence.
Qed.

Section Opening.

Lemma init_write_modes nm m w :
  nm <> "" -> m ∈ ["w"; "wb"; "w+"; "w+b"] ->
  __init__ nm m w
  = (Ok tt,
     File nm m 0 false (endswith m "b") (_fileno_counter w + 1) false 0 [],
     World (<[nm := []]> (_store w)) (_fileno_counter w + 1)).
Proof.
  intros Hnm Hm. apply String.eqb_neq in Hnm.
  each_mode Hm; unfold __init__, get_new_fileno; unfold_meth; simpl;
    rewrite Hnm; reflexivity.
Qed.

Lemma init_read_modes nm m w d :
  nm <> "" -> m ∈ ["r"; "rb"; "rU"; "r+"; "r+b"] ->
  _store w !! nm = Some d ->
  __init__ nm m w
  = (Ok tt,
     File nm m 0 false (endswith m "b") (_fileno_counter w + 1) false 0
          (if endswith m "b" then d else replace d [CR; LF] [LF]),
     World (_store w) (_fileno_counter w + 1)).
Proof.
  intros Hnm Hm Hd. apply String.eqb_neq in Hnm.
  each_mode Hm; unfold __init__, get_new_fileno; unfold_meth; simpl;
    rewrite Hnm; simpl; rewrite (CheckForFile_Some _ _ _ Hd); simpl;
    rewrite Hd; reflexivity.
Qed.

Lemma CheckForFile_None nm (w : world) :
  _store w !! nm = None -> bool_decide (is_Some (_store w !! nm)) = false.
Proof.
  intros ->. apply bool_decide_eq_false. intros [x Hx]. discriminate.
Qed.


Lemma init_append_existing nm m w d :
  nm <> "" -> m ∈ ["a"; "ab"; "a+"; "a+b"] ->
  _store w !! nm = Some d ->
  let loaded := if endswith m "b" then d else replace d [CR; LF] [LF] in
  __init__ nm m w
  = (Ok tt,
     File nm m (len loaded) false (endswith m "b") (_fileno_counter w + 1)
          false 0 loaded,
     World (_store w) (_fileno_counter w + 1)).
Proof.
  intros Hnm Hm Hd. apply String.eqb_neq in Hnm.
  assert (Hs : bool_decide (is_Some (Some d)) = true)
    by (apply bool_decide_eq_true; eauto).
  each_mode Hm; unfold __init__, get_new_fileno; unfold_meth; simpl;
    rewrite Hnm; simpl; rewrite (CheckForFile_Some _ _ _ Hd); simpl;
    rewrite ?Hd, ?Hs; simpl; rewrite ?Hd, ?Hs; reflexivity.
Qed.

Lemma init_append_missing nm m w :
  nm <> "" -> m ∈ ["a"; "ab"; "a+"; "a+b"] ->
  _store w !! nm = None ->
  __init__ nm m w
  = (Ok tt,
     File nm m 0 false (endswith m "b") (_fileno_counter w + 1) false 0 [],
     World (<[nm := []]> (_store w)) (_fileno_counter w + 1)).
Proof.
  intros Hnm Hm Hd. apply String.eqb_neq in Hnm.
  each_mode Hm; unfold __init__, get_new_fileno; unfold_meth; simpl;
    rewrite Hnm; simpl; rewrite (CheckForFile_None _ _ Hd); reflexivity.
Qed.

End Opening.

(** X10: Opening a name in a [w] mode empties its entry at once, before anything
    is written or closed: the call succeeds, the handle starts empty at
    position 0, the stored content of the name is the empty text, and every
    other entry is as before. *)
Theorem open_for_write_truncates (nm m : string) (w : world) :
  nm <> "" -> m ∈ ["w"; "wb"; "w+"; "w+b"] ->
  let r := __init__ nm m w in
  outcome r = Ok tt
  /\ _data (handle r) = [] /\ _position (handle r) = 0
  /\ backend.LoadFile nm (globals r) = (Ok [], globals r)
  /\ forall k, k <> nm -> _store (globals r) !! k = _store w !! k.
Proof.
  intros Hnm Hm. cbv zeta. rewrite (init_write_modes nm m w Hnm Hm).
  unfold outcome, handle, globals, backend.LoadFile.
  cbn [fst snd _data _position _store]. rewrite lookup_insert_eq.
  split_all; try reflexivity.
  intros k Hk. apply lookup_insert_ne. congruence.
Qed.

Lemma open_for_write_truncates_witness :
  let r := __init__ "f" "w+b" sample_world in
  outcome r = Ok tt
  /\ _data (handle r) = [] /\ _position (handle r) = 0
  /\ backend.LoadFile "f" (globals r) = (Ok [], globals r)
  /\ forall k, k <> "f" -> _store (globals r) !! k = _store sample_world !! k.
Proof.
  apply (open_for_write_truncates "f" "w+b" sample_world).
  - discriminate.
  - rewrite !elem_of_cons. tauto.
Defined.



(** X12: Opening in an [a] mode never fails for a non-empty name.  If the name is
    present its content is loaded (with CR LF read as LF unless the mode is
    binary), the cursor is put at its end and the store is left alone; if the
    name is absent an empty entry is created and the cursor is at 0. *)
Theorem open_for_append (nm m : string) (w : world) :
  nm <> "" -> m ∈ ["a"; "ab"; "a+"; "a+b"] ->
  let r := __init__ nm m w in
  outcome r = Ok tt
  /\ match _store w !! nm with
     | Some d =>
         _data (handle r)
         = (if endswith m "b" then d else replace d [CR; LF] [LF])
         /\ _position (handle r) = len (_data (handle r))
         /\ _store (globals r) = _store w
     | None =>
         _data (handle r) = [] /\ _position (handle r) = 0
         /\ _store (globals r) = <[nm := []]> (_store w)
     end.
Proof.
  intros Hnm Hm. cbv zeta. destruct (_store w !! nm) as [d |] eqn:Hd.
  - pose proof (init_append_existing nm m w d Hnm Hm Hd) as E.
    cbv zeta in E. rewrite E. split_all; reflexivity.
  - rewrite (init_append_missing nm m w Hnm Hm Hd). split_all; reflexivity.
Qed.

Lemma open_for_append_witness :
  let r := __init__ "f" "a" sample_world in
  outcome r = Ok tt
  /\ match _store sample_world !! "f" with
     | Some d =>
         _data (handle r)
         = (if endswith "a" "b" then d else replace d [CR; LF] [LF])
         /\ _position (handle r) = len (_data (handle r))
         /\ _store (globals r) = _store sample_world
     | None =>
         _data (handle r) = [] /\ _position (handle r) = 0
         /\ _store (globals r) = <[ "f" := []]> (_store sample_world)
     end.
Proof.
  apply (open_for_append "f" "a" sample_world).
  - discriminate.
  - rewrite !elem_of_cons. tauto.
Defined.

(** ** Writes as splices *)

(** The buffer that [write] leaves: [start + padding + data + end], as a
    function of the old buffer, the cursor and the data as stored. *)
Definition spliced (d : text) (position : Z) (data : text) : text :=
  let start := slice d None (Some position) in
  start ++ times (position - len start) [NUL] ++ data
    ++ slice d (Some (position + len data)) None.

Section Splice.

Lemma times_NUL n : times n [NUL] = replicate (Z.to_nat n) NUL.
Proof.
  unfold times. induction (Z.to_nat n) as [| k IH]; [reflexivity |].
  cbn [replicate concat app]. rewrite IH. reflexivity.
Qed.

Lemma spliced_eq d p a :
  0 <= p ->
  spliced d p a
  = take (Z.to_nat p) d ++ replicate (Z.to_nat p - length d)%nat NUL ++ a
      ++ drop (Z.to_nat p + length a)%nat d.
Proof.
  intros Hp. unfold spliced.
  rewrite slice_to by exact Hp.
  rewrite slice_from by (pose proof (len_nonneg a); lia).
  rewrite times_NUL. unfold len. rewrite length_take.
  replace (Z.to_nat (p - Z.of_nat (Z.to_nat p `min` length d)))
    with (Z.to_nat p - length d)%nat by lia.
  replace (Z.to_nat (p + Z.of_nat (length a)))
    with (Z.to_nat p + length a)%nat by lia.
  reflexivity.
Qed.

Lemma spliced_length d p a :
  0 <= p -> len (spliced d p a) = Z.max (len d) (p + len a).
Proof.
  intros Hp. rewrite spliced_eq by exact Hp. unfold len.
  rewrite !length_app, length_take, length_replicate, length_drop. lia.
Qed.

Lemma spliced_spliced d p a b :
  0 <= p -> spliced (spliced d p a) (p + len a) b = spliced d p (a ++ b).
Proof.
  intros Hp. pose proof (len_nonneg a) as Ha.
  rewrite (spliced_eq (spliced d p a)) by lia.
  rewrite (spliced_eq d p (a ++ b)) by exact Hp.
  pose proof (spliced_length d p a Hp) as Hl. unfold len in Hl.
  replace (Z.to_nat (p + len a)) with (Z.to_nat p + length a)%nat
    by (unfold len; lia).
  replace (Z.to_nat p + length a - length (spliced d p a))%nat with 0%nat
    by lia.
  rewrite spliced_eq by exact Hp.
  set (P := Z.to_nat p).
  set (pre := take P d ++ replicate (P - length d)%nat NUL).
  assert (Hpre : length pre = P).
  { unfold pre. rewrite length_app, length_take, length_replicate. lia. }
  replace (take P d ++ replicate (P - length d)%nat NUL ++ a
             ++ drop (P + length a)%nat d)
    with ((pre ++ a) ++ drop (P + length a)%nat d)
    by (unfold pre; rewrite <- !app_assoc; reflexivity).
  rewrite take_app_length' by (rewrite length_app; lia).
  rewrite drop_app_add' by (rewrite length_app; lia).
  rewrite drop_drop, length_app.
  cbn [replicate app]. unfold pre. rewrite <- !app_assoc.
  rewrite Nat.add_assoc. reflexivity.
Qed.

Lemma translate_app a b :
  replace (a ++ b) [LF] [CR; LF]
  = replace a [LF] [CR; LF] ++ replace b [LF] [CR; LF].
Proof.
  unfold replace. induction a as [| c a IH]; [reflexivity |].
  rewrite <- app_comm_cons, !translate_cons, IH.
  destruct (Ascii.eqb LF c); reflexivity.
Qed.

Lemma write_spliced data f w :
  mode_in (_mode f) WRITE_MODES = true -> _closed f = false -> data <> [] ->
  let data' := if _binary f then data else replace data [LF] [CR; LF] in
  write data f w
  = (Ok tt,
     set_position (_position f + len data')
       (set_data (spliced (_data f) (_position f) data') (set_softspace 0 f)),
     w).
Proof. intros Hm Hc Hd. apply write_ok; assumption. Qed.

Lemma write_refused data f w :
  mode_in (_mode f) WRITE_MODES = false ->
  write data f w = (Raise bad_descriptor, f, w).
Proof. intros Hm. unfold_step. rewrite Hm. reflexivity. Qed.

Lemma write_closed data f w :
  mode_in (_mode f) WRITE_MODES = true -> _closed f = true ->
  write data f w = (Raise closed_file, f, w).
Proof. intros Hm Hc. unfold_step. rewrite Hm, Hc. reflexivity. Qed.

Lemma write_softspace data v f w :
  mode_in (_mode f) WRITE_MODES = true -> _closed f = false ->
  write data (set_softspace v f) w = write data f w.
Proof.
  intros Hm Hc. unfold_step. rewrite Hm, Hc. step.
  destruct data; reflexivity.
Qed.

Lemma bind_assoc {A B C} (c : M A) (k1 : A -> M B) (k2 : B -> M C) f w :
  bind (bind c k1) k2 f w = bind c (fun x => bind (k1 x) k2) f w.
Proof. unfold bind. destruct (c f w) as [[[] f'] w']; reflexivity. Qed.

Lemma bind_congr {A B} (c1 c2 : M A) (k : A -> M B) f w :
  c1 f w = c2 f w -> bind c1 k f w = bind c2 k f w.
Proof. unfold bind. intros ->. reflexivity. Qed.

Lemma bind_ret_tt (c : M unit) f w : bind c (fun _ => ret tt) f w = c f w.
Proof.
  unfold bind, ret. destruct (c f w) as [[[[] |] f'] w']; reflexivity.
Qed.

Lemma write_then_write a b f w :
  0 <= _position f -> (write a ;; write b) f w = write (a ++ b) f w.
Proof.
  intros Hp.
  destruct (mode_in (_mode f) WRITE_MODES) eqn:Hm;
    [| unfold bind; rewrite !write_refused by exact Hm; reflexivity].
  destruct (_closed f) eqn:Hc;
    [unfold bind; rewrite !write_closed by assumption; reflexivity |].
  destruct a as [| x a].
  - unfold bind. rewrite write_empty by assumption. cbn [app].
    apply write_softspace; assumption.
  - destruct b as [| y b].
    + rewrite app_nil_r. unfold bind.
      rewrite write_spliced by first [assumption | discriminate].
      cbv zeta. rewrite write_empty by assumption. reflexivity.
    + unfold bind.
      rewrite (write_spliced (x :: a)) by first [assumption | discriminate].
      cbv zeta.
      rewrite (write_spliced (y :: b)) by first [assumption | discriminate].
      rewrite (write_spliced ((x :: a) ++ y :: b))
        by first [assumption | discriminate].
      cbv zeta.
      cbn [set_position set_data set_softspace _name _mode _position _closed
           _binary _fileno _in_iter _softspace _data].
      rewrite spliced_spliced by exact Hp.
      destruct (_binary f).
      * rewrite len_app, Z.add_assoc. reflexivity.
      * rewrite translate_app, len_app, Z.add_assoc. reflexivity.
Qed.

End Splice.

(** X13: Two writes in a row are one write of the concatenation: from a handle
    whose cursor is not negative, [write a] followed by [write b] gives the
    outcome, the handle and the store that [write (a ++ b)] gives, in every
    mode and also when the handle refuses to write. *)
Theorem writes_concatenate (a b : text) (f : file) (w : world) :
  0 <= _position f -> (write a ;; write b) f w = write (a ++ b) f w.
Proof. apply write_then_write. Qed.

Lemma writes_concatenate_witness :
  (write (text_of "ab") ;; write (text_of "cd"))
    (handle (__init__ "f" "w" sample_world)) sample_world
  = write (text_of "ab" ++ text_of "cd")
      (handle (__init__ "f" "w" sample_world)) sample_world.
Proof.
  apply (writes_concatenate (text_of "ab")). vm_compute. discriminate.
Defined.

(** X14: [writelines] of a non-empty sequence is one [write] of the strings put
    end to end: same outcome, same handle, same store. *)
Theorem writelines_is_one_write (sequence : list text) (f : file)
    (w : world) :
  sequence <> [] -> 0 <= _position f ->
  writelines sequence f w = write (concat sequence) f w.
Proof.
  intros Hs Hp.
  assert (H : forall rest a,
             write_each (a :: rest) f w = write (a ++ concat rest) f w).
  { induction rest as [| b rest IH]; intros a.
    - cbn [write_each concat]. rewrite app_nil_r. apply bind_ret_tt.
    - cbn [write_each concat]. rewrite <- bind_assoc.
      rewrite (bind_congr _ (write (a ++ b)))
        by (apply write_then_write; exact Hp).
      change (write_each ((a ++ b) :: rest) f w
              = write (a ++ b ++ concat rest) f w).
      rewrite IH, app_assoc. reflexivity. }
  destruct sequence as [| a rest]; [congruence |].
  unfold writelines. unfold bind at 1. unfold self at 1.
  unfold bind at 1. unfold when.
  destruct (mode_in (mode f) WRITE_MODES) eqn:Hm; cbn [negb raise ret].
  - apply H.
  - rewrite write_refused by exact Hm. reflexivity.
Qed.

Lemma writelines_is_one_write_witness :
  writelines [text_of "ab"; []; text_of "cd"]
    (handle (__init__ "f" "a" sample_world)) sample_world
  = write (concat [text_of "ab"; []; text_of "cd"])
      (handle (__init__ "f" "a" sample_world)) sample_world.
Proof.
  apply writelines_is_one_write.
  - discriminate.
  - vm_compute. discriminate.
Defined.

(** X15: A successful write of non-empty data changes the buffer only where it
    writes.  The stored form of the data (LF as CR LF unless the mode is
    binary) lies at the old cursor, the cursor moves to its end, the buffer
    grows to the new cursor when that is beyond its old end and never
    shrinks, and every unit of the old buffer outside the written range is
    where it was. *)
Theorem write_changes_only_its_range (data : text) (f : file) (w : world) :
  mode_in (_mode f) WRITE_MODES = true -> _closed f = false ->
  data <> [] -> 0 <= _position f ->
  let stored := if _binary f then data else replace data [LF] [CR; LF] in
  let f' := handle (write data f w) in
  _position f' = _position f + len stored
  /\ len (_data f') = Z.max (len (_data f)) (_position f')
  /\ (forall j c, stored !! j = Some c ->
        _data f' !! (Z.to_nat (_position f) + j)%nat = Some c)
  /\ (forall i, (i < length (_data f))%nat ->
        Z.of_nat i < _position f \/ _position f' <= Z.of_nat i ->
        _data f' !! i = _data f !! i).
Proof.
  intros Hm Hc Hd Hp. cbv zeta.
  pose proof (write_spliced data f w Hm Hc Hd) as E. cbv zeta in E.
  rewrite E. clear E. unfold handle.
  cbn [fst snd set_position set_data set_softspace _position _data].
  set (stored := if _binary f then data else replace data [LF] [CR; LF]).
  set (p := _position f) in *. set (d := _data f).
  split; [reflexivity |].
  split; [apply spliced_length; exact Hp |].
  rewrite spliced_eq by exact Hp.
  set (P := Z.to_nat p).
  set (pre := take P d ++ replicate (P - length d)%nat NUL).
  assert (Hpre : length pre = P).
  { unfold pre. rewrite length_app, length_take, length_replicate. lia. }
  replace (take P d ++ replicate (P - length d)%nat NUL ++ stored
             ++ drop (P + length stored)%nat d)
    with (pre ++ stored ++ drop (P + length stored)%nat d)
    by (unfold pre; rewrite <- !app_assoc; reflexivity).
  split.
  - intros j c Hj.
    rewrite lookup_app_r by lia.
    replace (P + j - length pre)%nat with j by lia.
    apply lookup_app_l_Some. exact Hj.
  - intros i Hi [Hlt | Hge].
    + assert (HiP : (i < P)%nat) by lia.
      unfold pre. rewrite <- !app_assoc.
      rewrite lookup_app_l by (rewrite length_take; lia).
      apply lookup_take_lt. exact HiP.
    + unfold len in Hge.
      rewrite lookup_app_r by lia.
      rewrite lookup_app_r by lia.
      rewrite lookup_drop. f_equal. lia.
Qed.

Lemma write_changes_only_its_range_witness :
  let f := handle (__init__ "f" "r+" sample_world) in
  let data := text_of "X" in
  let stored := if _binary f then data else replace data [LF] [CR; LF] in
  let f' := handle (write data f sample_world) in
  _position f' = _position f + len stored
  /\ len (_data f') = Z.max (len (_data f)) (_position f')
  /\ (forall j c, stored !! j = Some c ->
        _data f' !! (Z.to_nat (_position f) + j)%nat = Some c)
  /\ (forall i, (i < length (_data f))%nat ->
        Z.of_nat i < _position f \/ _position f' <= Z.of_nat i ->
        _data f' !! i = _data f !! i).
Proof.
  apply (write_changes_only_its_range (text_of "X")
           (handle (__init__ "f" "r+" sample_world)) sample_world).
  - reflexivity.
  - reflexivity.
  - discriminate.
  - vm_compute. discriminate.
Defined.

(** ** What a refused operation leaves behind *)

Section Refusals.

Lemma forget_outcome_raise {A} (c : M A) f w e :
  outcome (forget c f w) = Raise e -> outcome (c f w) = Raise e.
Proof.
  unfold forget, bind, ret, outcome.
  destruct (c f w) as [[[a | e0] f'] w']; cbn [fst]; congruence.
Qed.

Lemma write_accepts data f w :
  outcome (write data f w) = Ok tt ->
  mode_in (_mode f) WRITE_MODES = true /\ _closed f = false.
Proof.
  unfold_step.
  destruct (mode_in (_mode f) WRITE_MODES); step; [| discriminate].
  destruct (_closed f); step; [discriminate |]. split; reflexivity.
Qed.

Lemma write_refuses data f w e :
  outcome (write data f w) = Raise e ->
  (mode_in (_mode f) WRITE_MODES = false \/ _closed f = true)
  /\ handle (write data f w) = f /\ globals (write data f w) = w.
Proof.
  unfold_step.
  destruct (mode_in (_mode f) WRITE_MODES); step;
    [| intros _; split_all; [left |..]; reflexivity].
  destruct (_closed f); step;
    [intros _; split_all; [right |..]; reflexivity |].
  destruct data; step; discriminate.
Qed.

Lemma write_each_refuses sequence f w e :
  outcome (write_each sequence f w) = Raise e ->
  (mode_in (_mode f) WRITE_MODES = false \/ _closed f = true)
  /\ handle (write_each sequence f w) = f
  /\ globals (write_each sequence f w) = w.
Proof.
  revert f w. induction sequence as [| line rest IH]; intros f w;
    [discriminate |].
  cbn [write_each]. unfold bind.
  pose proof (write_accepts line f w) as Hok.
  pose proof (write_refuses line f w) as Hno.
  pose proof (write_identity line f w) as Hid. cbv zeta in Hid.
  pose proof (write_keeps_closed line f w) as Hcl.
  destruct (write line f w) as [[[[] | e0] f'] w'];
    unfold outcome, handle, globals in *; cbn [fst snd] in *.
  - intros He. destruct (Hok eq_refl) as [Hm Hc].
    destruct (IH f' w' He) as ([Hm' | Hc'] & _).
    + destruct Hid as (_ & Hmode & _). congruence.
    + congruence.
  - intros He. injection He as ->. apply (Hno e). reflexivity.
Qed.

Lemma valid_mode_reads_or_writes m :
  m ∈ ALL_MODES -> mode_in m READ_MODES = false ->
  mode_in m WRITE_MODES = true.
Proof.
  intros Hm. unfold ALL_MODES, PURE_READ_MODES, PURE_WRITE_MODES, MIXED_MODES
    in Hm. cbn [app] in Hm.
  each_mode Hm; vm_compute; congruence.
Qed.

Lemma writelines_unfold sequence f w :
  writelines sequence f w
  = if mode_in (_mode f) WRITE_MODES then write_each sequence f w
    else (Raise bad_descriptor, f, w).
Proof.
  unfold writelines, bind, self, when, mode.
  destruct (mode_in (_mode f) WRITE_MODES); reflexivity.
Qed.

End Refusals.

(** X16: An operation that raises has changed nothing: on a handle whose mode is
    one of the supported thirteen, every operation other than [__next__]
    that ends in an exception leaves the handle and the process-wide state
    exactly as they were.  ([__next__] is the exception: it sets its
    iteration flag before it raises [StopIteration].) *)
Theorem refused_operations_change_nothing (o : operation) (f : file)
    (w : world) (e : exc) :
  _mode f ∈ ALL_MODES -> o <> OpNext ->
  outcome (perform o f w) = Raise e ->
  handle (perform o f w) = f /\ globals (perform o f w) = w.
Proof.
  intros Hmode Ho. destruct o; cbn [perform]; try congruence.
  - (* read *)
    rewrite forget_handle, forget_globals. intros H.
    apply forget_outcome_raise in H. revert H.
    unfold_meth. scases; intros; simplify_eq; split; reflexivity.
  - (* write *)
    intros H. apply (write_refuses data f w e H).
  - (* writelines *)
    rewrite writelines_unfold.
    destruct (mode_in (_mode f) WRITE_MODES);
      [| intros _; split; reflexivity].
    intros H. apply (write_each_refuses sequence f w e H).
  - (* close *)
    unfold_meth. scases; intros; simplify_eq.
  - (* seek *)
    unfold_meth. scases; intros; simplify_eq; split; reflexivity.
  - (* tell *)
    unfold_meth. scases; intros; simplify_eq.
  - (* flush *)
    unfold_meth. scases; intros; simplify_eq; split; reflexivity.
  - (* readline *)
    rewrite forget_handle, forget_globals. intros H.
    apply forget_outcome_raise in H. revert H.
    unfold_meth. scases; intros; simplify_eq; split; reflexivity.
  - (* truncate *)
    unfold_meth. scases; intros; simplify_eq;
      try (split; reflexivity);
      match goal with
      | H1 : mode_in ?m READ_MODES = false,
        H2 : negb (mode_in ?m WRITE_MODES) = true |- _ =>
          rewrite (valid_mode_reads_or_writes m Hmode H1) in H2;
          discriminate
      end.
Qed.

Lemma refused_operations_change_nothing_witness :
  let f := handle (__init__ "f" "r" sample_world) in
  handle (perform (OpWrite (text_of "x")) f sample_world) = f
  /\ globals (perform (OpWrite (text_of "x")) f sample_world) = sample_world.
Proof.
  apply (refused_operations_change_nothing (OpWrite (text_of "x"))
           (handle (__init__ "f" "r" sample_world)) sample_world
           bad_descriptor).
  - apply mode_in_true. reflexivity.
  - discriminate.
  - reflexivity.
Defined.

(** ** What reaches the store *)

Section Stored.

Lemma spliced_at_end d a : spliced d (len d) a = d ++ a.
Proof.
  rewrite spliced_eq by apply len_nonneg. unfold len. rewrite Nat2Z.id.
  rewrite take_ge by lia. rewrite Nat.sub_diag. cbn [replicate app].
  rewrite drop_ge by lia. rewrite app_nil_r. reflexivity.
Qed.

Lemma write_at_end x f w :
  mode_in (_mode f) WRITE_MODES = true -> _closed f = false ->
  _position f = len (_data f) ->
  let stored := if _binary f then x else replace x [LF] [CR; LF] in
  outcome (write x f w) = Ok tt
  /\ _data (handle (write x f w)) = _data f ++ stored
  /\ _name (handle (write x f w)) = _name f
  /\ _mode (handle (write x f w)) = _mode f
  /\ _closed (handle (write x f w)) = false
  /\ globals (write x f w) = w.
Proof.
  intros Hm Hc Hp. cbv zeta. destruct x as [| c x].
  - rewrite write_empty by assumption.
    unfold outcome, handle, globals. cbn [fst snd set_softspace _data _name
      _mode _closed].
    replace (if _binary f then [] else replace [] [LF] [CR; LF])
      with (@nil ascii) by (destruct (_binary f); reflexivity).
    rewrite app_nil_r. split_all; first [reflexivity | assumption].
  - pose proof (write_spliced (c :: x) f w Hm Hc) as E. cbv zeta in E.
    rewrite E by discriminate. clear E.
    unfold outcome, handle, globals.
    cbn [fst snd set_position set_data set_softspace _data _name _mode
         _closed].
    rewrite Hp, spliced_at_end. split_all; first [reflexivity | assumption].
Qed.

Lemma close_commits f w :
  mode_in (_mode f) WRITE_MODES = true -> _closed f = false ->
  outcome (close f w) = Ok tt
  /\ _store (globals (close f w)) !! _name f = Some (_data f).
Proof.
  intros Hm Hc. rewrite close_ok by exact Hc. rewrite Hm.
  unfold outcome, globals. cbn [fst snd _store].
  split; [reflexivity | apply lookup_insert_eq].
Qed.

End Stored.

(** X17: Appending extends the entry.  Open an existing name in an [a] mode,
    write [x] and close: all three calls succeed and the entry holds the
    content as it was loaded followed by [x] as it is stored.  In a binary
    mode that is the old content followed by [x]; in a text mode the old
    content has its CR LF turned into LF and [x] has its LF turned into
    CR LF. *)
Theorem append_extends_the_entry (nm m : string) (d x : text) (w : world) :
  nm <> "" -> m ∈ ["a"; "ab"; "a+"; "a+b"] -> _store w !! nm = Some d ->
  let opened := __init__ nm m w in
  let written := run (write x) opened in
  let closed_ := run close written in
  let loaded := if endswith m "b" then d else replace d [CR; LF] [LF] in
  let stored := if endswith m "b" then x else replace x [LF] [CR; LF] in
  outcome opened = Ok tt /\ outcome written = Ok tt
  /\ outcome closed_ = Ok tt
  /\ _store (globals closed_) !! nm = Some (loaded ++ stored).
Proof.
  intros Hnm Hm Hd. cbv zeta.
  assert (Hcap : mode_in m WRITE_MODES = true)
    by (each_mode Hm; reflexivity).
  pose proof (init_append_existing nm m w d Hnm Hm Hd) as E1.
  cbv zeta in E1. rewrite E1. clear E1.
  set (loaded := if endswith m "b" then d else replace d [CR; LF] [LF]).
  set (f0 := File nm m (len loaded) false (endswith m "b")
               (_fileno_counter w + 1) false 0 loaded).
  set (w0 := World (_store w) (_fileno_counter w + 1)).
  change (run (write x) (Ok (), f0, w0)) with (write x f0 w0).
  change (run close (write x f0 w0))
    with (close (handle (write x f0 w0)) (globals (write x f0 w0))).
  destruct (write_at_end x f0 w0 Hcap eq_refl eq_refl)
    as (Ew & Edata & Ename & Emode & Eclosed & Eglobals).
  cbv zeta in Edata. rewrite Eglobals.
  destruct (close_commits (handle (write x f0 w0)) w0) as [Ec Es].
  { rewrite Emode. exact Hcap. }
  { exact Eclosed. }
  rewrite Ename, Edata in Es.
  split_all; first [reflexivity | assumption].
Qed.

Lemma append_extends_the_entry_witness :
  let opened := __init__ "f" "ab" sample_world in
  let written := run (write (text_of "x")) opened in
  let closed_ := run close written in
  let loaded := if endswith "ab" "b" then sample_text
                else replace sample_text [CR; LF] [LF] in
  let stored := if endswith "ab" "b" then text_of "x"
                else replace (text_of "x") [LF] [CR; LF] in
  outcome opened = Ok tt /\ outcome written = Ok tt
  /\ outcome closed_ = Ok tt
  /\ _store (globals closed_) !! "f" = Some (loaded ++ stored).
Proof.
  apply (append_extends_the_entry "f" "ab" sample_text (text_of "x")
           sample_world).
  - discriminate.
  - rewrite !elem_of_cons. tauto.
  - reflexivity.
Defined.

(** X18: What a binary read sees is the stored form.  Write [T] through a fresh
    handle in a [w] mode, close it, reopen the name in a binary read mode
    and read everything: every call succeeds and the read returns [T]
    itself if the writing mode was binary, and [T] with every LF turned
    into CR LF if it was a text mode.  The empty text is included. *)
Theorem binary_read_sees_stored_form (nm wmode rmode : string) (T : text)
    (w : world) :
  nm <> "" -> wmode ∈ ["w"; "wb"; "w+"; "w+b"] -> rmode ∈ ["rb"; "r+b"] ->
  write_close_reopen_read nm wmode rmode T w
  = (Ok tt, Ok tt, Ok tt, Ok tt,
     Ok (if endswith wmode "b" then T else replace T [LF] [CR; LF])).
Proof.
  intros Hnm Hw Hr.
  assert (Hcap : mode_in wmode WRITE_MODES = true)
    by (each_mode Hw; reflexivity).
  assert (Hrd : mode_in rmode READ_MODES = true)
    by (each_mode Hr; reflexivity).
  assert (Hrb : endswith rmode "b" = true)
    by (each_mode Hr; reflexivity).
  pose proof (init_write_modes nm wmode w Hnm Hw) as E1.
  set (f0 := File nm wmode 0 false (endswith wmode "b")
               (_fileno_counter w + 1) false 0 []) in E1.
  set (w0 := World (<[nm := []]> (_store w)) (_fileno_counter w + 1)) in E1.
  set (T' := if endswith wmode "b" then T else replace T [LF] [CR; LF]).
  destruct (write_at_end T f0 w0 Hcap eq_refl eq_refl)
    as (Ew & Edata & Ename & Emode & Eclosed & Eglobals).
  cbv zeta in Edata. cbn [f0 _data _binary app _name _mode] in *.
  fold T' in Edata.
  destruct (close_commits (handle (write T f0 w0)) w0) as [Ec Es].
  { rewrite Emode. exact Hcap. }
  { exact Eclosed. }
  rewrite Ename, Edata in Es.
  assert (Hne : (nm =? "")%string = false) by (apply String.eqb_neq; exact Hnm).
  set (w1 := globals (close (handle (write T f0 w0)) w0)) in *.
  pose proof (init_read_modes nm rmode w1 T' Hnm
                ltac:(each_mode Hr; rewrite !elem_of_cons; tauto) Es) as E4.
  rewrite Hrb in E4.
  set (f3 := File nm rmode 0 false true (_fileno_counter w1 + 1) false 0 T')
    in E4.
  set (w2 := World (_store w1) (_fileno_counter w1 + 1)) in E4.
  assert (E5 : outcome (read None f3 w2) = Ok T').
  { destruct (mode_in rmode WRITE_MODES) eqn:Hrw.
    - rewrite read_no_reload
        by first [assumption | reflexivity
                 | cbn [f3 _mode _position]; rewrite Hrw; reflexivity].
      cbn [f3 _data _position]. unfold outcome. cbn [fst].
      rewrite slice_whole. reflexivity.
    - rewrite (read_reload None f3 w2 T')
        by first [assumption | reflexivity].
      cbn [f3 _binary negb]. unfold outcome. cbn [fst].
      rewrite slice_whole. reflexivity. }
  unfold write_close_reopen_read, run.
  rewrite E1. cbn [outcome handle globals fst snd].
  fold (outcome (write T f0 w0)). rewrite Ew.
  fold (globals (write T f0 w0)). rewrite Eglobals.
  fold (handle (write T f0 w0)).
  fold (outcome (close (handle (write T f0 w0)) w0)). rewrite Ec.
  fold (globals (close (handle (write T f0 w0)) w0)). fold w1.
  rewrite E4. cbn [outcome handle globals fst snd].
  fold (outcome (read None f3 w2)). rewrite E5. reflexivity.
Qed.

Lemma binary_read_sees_stored_form_witness :
  write_close_reopen_read "f" "w" "rb" sample_text initial_world
  = (Ok tt, Ok tt, Ok tt, Ok tt,
     Ok (if endswith "w" "b" then sample_text
         else replace sample_text [LF] [CR; LF])).
Proof.
  apply binary_read_sees_stored_form.
  - discriminate.
  - rewrite !elem_of_cons. tauto.
  - rewrite !elem_of_cons. tauto.
Defined.

(** ** [readline] in general *)

Section Readline.

Lemma readline_negative n f w :
  n < 0 -> readline (Some n) f w = readline None f w.
Proof.
  intros Hn. unfold_step.
  destruct (mode_in (_mode f) WRITE_MODES); step; [reflexivity |].
  replace (n <? 0) with true by (symmetry; apply Z.ltb_lt; exact Hn).
  reflexivity.
Qed.

Lemma readline_at_end size f w :
  mode_in (_mode f) WRITE_MODES = false -> len (_data f) <= _position f ->
  readline size f w = (Ok [], f, w).
Proof.
  intros Hm Hp. unfold_step. rewrite Hm. step.
  apply Z.leb_le in Hp.
  destruct size as [n |]; step; [destruct (n <? 0); step |];
    rewrite Hp; reflexivity.
Qed.

Lemma next_line_at_end f :
  0 <= _position f -> len (_data f) <= _position f -> next_line f = [].
Proof.
  intros Hp He. unfold next_line. rewrite drop_ge by len_lia. reflexivity.
Qed.

(** A [size] that is not below the length of the next line returns the
    whole line. *)
Lemma readline_enough n f w :
  mode_in (_mode f) WRITE_MODES = false ->
  0 <= _position f < len (_data f) ->
  len (next_line f) <= n ->
  readline (Some n) f w
  = (Ok (next_line f), set_position (_position f + len (next_line f)) f, w).
Proof.
  intros Hm Hp Hn. pose proof (next_line_bounds f Hp) as Hb.
  unfold_step. rewrite Hm. step.
  replace (n <? 0) with false by (symmetry; apply Z.ltb_ge; len_lia). step.
  replace (len (_data f) <=? _position f) with false
    by (symmetry; apply Z.leb_gt; len_lia).
  rewrite slice_from by len_lia. rewrite find_index.
  unfold next_line in *.
  set (rem := drop (Z.to_nat (_position f)) (_data f)) in *.
  assert (Hrem : len rem = len (_data f) - _position f)
    by (unfold rem, len in *; rewrite length_drop; lia).
  destruct (index_of LF rem) as [k |] eqn:E.
  - replace (Z.of_nat k =? -1) with false
      by (symmetry; apply Z.eqb_neq; len_lia).
    step. apply index_of_lt in E.
    rewrite !slice_to by len_lia.
    replace (Z.to_nat (Z.of_nat k + 1)) with (S k) by len_lia.
    replace (len (take (S k) rem) <=? n) with true
      by (symmetry; apply Z.leb_le; len_lia).
    reflexivity.
  - change (-1 =? -1) with true. step.
    destruct (len rem <? n) eqn:En; step.
    + do 2 f_equal. f_equal. lia.
    + apply Z.ltb_ge in En. assert (n = len rem) as -> by lia.
      rewrite slice_to by len_lia.
      assert (Ht : take (Z.to_nat (len rem)) rem = rem)
        by (apply take_ge; unfold len; lia).
      rewrite !Ht. reflexivity.
Qed.

End Readline.

(** X19: [readline] in full.  On a text handle opened for reading only
    (mode ['r'] or ['rU']) whose cursor
    is not negative, [readline] never fails, returns the next line (the rest
    of the content up to and including the first LF, or all of it, or the
    empty text at the end) cut to [size] units when [size] is given and not
    negative, moves the cursor by exactly the length of what it returns, and
    touches neither the content nor the store. *)
Theorem readline_returns_the_next_line (size : option Z) (f : file)
    (w : world) :
  _mode f ∈ ["r"; "rU"] -> 0 <= _position f ->
  let line := match size with
              | Some n =>
                  if n <? 0 then next_line f
                  else take (Z.to_nat n) (next_line f)
              | None => next_line f
              end in
  let r := readline size f w in
  outcome r = Ok line
  /\ _position (handle r) = _position f + len line
  /\ _data (handle r) = _data f
  /\ globals r = w.
Proof.
  intros Hmode Hp. cbv zeta.
  assert (Hm : mode_in (_mode f) WRITE_MODES = false).
  { revert Hmode. generalize (_mode f). intros m Hmode.
    each_mode Hmode; reflexivity. }
  destruct (Z.le_gt_cases (len (_data f)) (_position f)) as [He | Hlt].
  - rewrite readline_at_end by assumption.
    rewrite next_line_at_end by assumption.
    unfold outcome, handle, globals. cbn [fst snd].
    replace (match size with
             | Some n => if n <? 0 then [] else take (Z.to_nat n) []
             | None => []
             end) with (@nil ascii)
      by (destruct size as [n |]; [destruct (n <? 0) |];
          rewrite ?take_nil; reflexivity).
    split_all; first [reflexivity | unfold len; cbn [length]; lia].
  - assert (Hin : 0 <= _position f < len (_data f)) by lia.
    pose proof (next_line_bounds f Hin) as Hb.
    destruct size as [n |].
    + destruct (n <? 0) eqn:En.
      * apply Z.ltb_lt in En. rewrite readline_negative by exact En.
        rewrite readline_all by assumption. split_all; reflexivity.
      * apply Z.ltb_ge in En.
        destruct (Z.lt_ge_cases n (len (next_line f))) as [Hcut | Hall].
        -- rewrite readline_cut by first [assumption | lia].
           unfold outcome, handle, globals.
           cbn [fst snd set_position _position _data].
           split_all; try reflexivity.
           unfold len in *. rewrite length_take. lia.
        -- rewrite readline_enough by first [assumption | lia].
           rewrite take_ge by len_lia. split_all; reflexivity.
    + rewrite readline_all by assumption. split_all; reflexivity.
Qed.

Lemma readline_returns_the_next_line_witness :
  let f := handle (__init__ "f" "r" sample_world) in
  let line := if 2 <? 0 then next_line f
              else take (Z.to_nat 2) (next_line f) in
  let r := readline (Some 2) f sample_world in
  outcome r = Ok line
  /\ _position (handle r) = _position f + len line
  /\ _data (handle r) = _data f
  /\ globals r = sample_world.
Proof.
  apply (readline_returns_the_next_line (Some 2)
           (handle (__init__ "f" "r" sample_world)) sample_world).
  - apply elem_of_cons. left. reflexivity.
  - vm_compute. discriminate.
Defined.

(** ** [read] and the store *)

Section Reading.

Lemma slice_after p n (s : text) :
  0 <= p -> 0 <= n ->
  let q := p + len (slice s (Some p) (Some (p + len s))) in
  slice s (Some q) (Some (q + n)) = [].
Proof.
  intros Hp Hn. cbv zeta. apply slice_beyond.
  - pose proof (len_nonneg (slice s (Some p) (Some (p + len s)))). lia.
  - rewrite slice_range by (pose proof (len_nonneg s); lia).
    unfold len. rewrite length_take, length_drop. lia.
Qed.

Lemma read_accepts size f w T :
  outcome (read size f w) = Ok T ->
  mode_in (_mode f) READ_MODES = true /\ _closed f = false
  /\ _in_iter f = false.
Proof.
  unfold read.
  unfold bind at 1. unfold self at 1.
  unfold bind at 1. unfold when at 1. unfold mode.
  destruct (mode_in (_mode f) READ_MODES); cbn [negb raise ret];
    [| discriminate].
  unfold bind at 1. unfold when at 1. unfold closed.
  destruct (_closed f); cbn [raise ret]; [discriminate |].
  unfold bind at 1. unfold when at 1.
  destruct (_in_iter f); cbn [raise ret]; [discriminate |].
  intros _. split_all; reflexivity.
Qed.

End Reading.

(** X20: A handle without write capability reads the store, not its buffer, when
    its cursor is at 0: whatever the handle held, [read()] returns what the
    store holds for the name at that moment (with CR LF read as LF unless
    the mode is binary), and fails with [IOError] if the name is gone. *)
Theorem read_at_start_sees_the_store (f : file) (w : world) :
  _mode f ∈ ["r"; "rb"; "rU"] -> _closed f = false -> _in_iter f = false ->
  _position f = 0 ->
  outcome (read None f w)
  = match _store w !! _name f with
    | Some d => Ok (if _binary f then d else replace d [CR; LF] [LF])
    | None =>
        Raise (IOError (Fmt "No such file or directory: %r" (_name f)))
    end.
Proof.
  intros Hm Hc Hi Hp.
  assert (Hr : mode_in (_mode f) READ_MODES = true
               /\ mode_in (_mode f) WRITE_MODES = false).
  { revert Hm. generalize (_mode f). intros m Hm.
    each_mode Hm; split; reflexivity. }
  destruct Hr as [Hr Hw].
  destruct (_store w !! _name f) as [d |] eqn:Hd.
  - rewrite (read_reload None f w d) by assumption.
    unfold outcome. cbn [fst]. rewrite slice_whole.
    destruct (_binary f); reflexivity.
  - rewrite read_reload_missing by assumption. reflexivity.
Qed.

Lemma read_at_start_sees_the_store_witness :
  outcome (read None (File "f" "r" 0 false false 3 false 0 (text_of "old"))
             sample_world)
  = match _store sample_world !! "f" with
    | Some d => Ok (if false then d else replace d [CR; LF] [LF])
    | None => Raise (IOError (Fmt "No such file or directory: %r" "f"))
    end.
Proof.
  apply (read_at_start_sees_the_store
           (File "f" "r" 0 false false 3 false 0 (text_of "old"))
           sample_world).
  - rewrite !elem_of_cons. tauto.
  - reflexivity.
  - reflexivity.
  - reflexivity.
Defined.

(** X21: After [read()] nothing is left: once a [read()] has succeeded on a
    handle whose cursor was not negative, a further [read], with any
    [size], succeeds, returns the empty text and does not move the cursor. *)
Theorem read_after_read_all_is_empty (size : option Z) (f : file)
    (w : world) (T : text) :
  0 <= _position f -> outcome (read None f w) = Ok T ->
  let first := read None f w in
  let second := run (read size) first in
  outcome second = Ok []
  /\ _position (handle second) = _position (handle first).
Proof.
  intros Hp HT. cbv zeta.
  destruct (read_accepts None f w T HT) as (Hr & Hc & Hi).
  set (n := fun d : text =>
              match size with
              | Some s => if s <? 0 then len d else s
              | None => len d
              end).
  assert (Hn : forall d, 0 <= n d).
  { intros d. unfold n. pose proof (len_nonneg d).
    destruct size as [s |]; [destruct (s <? 0) eqn:E |]; lia. }
  destruct ((_position f =? 0) && negb (mode_in (_mode f) WRITE_MODES))
    eqn:Hcond.
  - (* the first read loads the content again *)
    apply andb_true_iff in Hcond as [Hz Hw].
    apply Z.eqb_eq in Hz. apply negb_true_iff in Hw.
    destruct (_store w !! _name f) as [d |] eqn:Hd;
      [| rewrite read_reload_missing in HT by assumption; discriminate].
    pose proof (read_reload None f w d Hr Hc Hi Hz Hw Hd) as E.
    cbv zeta in E. rewrite E. clear E.
    set (L := if negb (_binary f) then replace d [CR; LF] [LF] else d).
    rewrite slice_whole. unfold run, handle, globals. cbn [fst snd].
    set (f1 := set_position (0 + len L) (set_data L f)).
    destruct L as [| c L'] eqn:EL.
    + (* empty content: loaded once more *)
      pose proof (read_reload size f1 w d Hr Hc Hi eq_refl Hw Hd) as E.
      cbv zeta in E. cbn [f1 set_position set_data _binary] in E.
      fold L in E. rewrite EL in E. rewrite E. clear E.
      rewrite slice_nil. split; reflexivity.
    + pose proof (read_no_reload size f1 w Hr Hc Hi) as E.
      cbv zeta in E. rewrite E by reflexivity. clear E.
      cbn [f1 set_position set_data _position _data fst snd].
      unfold outcome. cbn [fst].
      rewrite slice_beyond by len_lia.
      split; [reflexivity |]. change (len []) with 0. lia.
  - (* the first read uses the buffer *)
    pose proof (read_no_reload None f w Hr Hc Hi Hcond) as E.
    cbv zeta in E. rewrite E. clear E.
    unfold run, handle, globals. cbn [fst snd].
    set (d := slice (_data f) (Some (_position f))
                (Some (_position f + len (_data f)))).
    set (f1 := set_position (_position f + len d) f).
    assert (Hcond1 : (_position f1 =? 0)
                     && negb (mode_in (_mode f1) WRITE_MODES) = false).
    { cbn [f1 set_position _position _mode].
      apply andb_false_iff in Hcond as [Hz | Hw];
        [| rewrite Hw; apply andb_false_r].
      apply Z.eqb_neq in Hz. pose proof (len_nonneg d).
      replace (_position f + len d =? 0) with false
        by (symmetry; apply Z.eqb_neq; lia).
      reflexivity. }
    pose proof (read_no_reload size f1 w Hr Hc Hi Hcond1) as E.
    cbv zeta in E. rewrite E. clear E.
    cbn [f1 set_position _position _data fst snd]. unfold outcome.
    cbn [fst]. fold (n (_data f)).
    pose proof (slice_after (_position f) (n (_data f)) (_data f) Hp
                  (Hn (_data f))) as Hs.
    cbv zeta in Hs. fold d in Hs. rewrite Hs.
    split; [reflexivity |]. change (len []) with 0. lia.
Qed.

Lemma read_after_read_all_is_empty_witness :
  let first := read None (handle (__init__ "f" "r" sample_world))
                 sample_world in
  let second := run (read (Some 5)) first in
  outcome second = Ok []
  /\ _position (handle second) = _position (handle first).
Proof.
  apply (read_after_read_all_is_empty (Some 5)
           (handle (__init__ "f" "r" sample_world)) sample_world
           sample_text).
  - vm_compute. discriminate.
  - reflexivity.
Defined.

(** ** [truncate] *)

(** X22: [truncate(size)] on a text handle that only writes.  For a [size] that
    is not negative the call succeeds, also on a closed handle: the buffer
    becomes exactly [size] units long, keeping the units it had below
    [size] and holding NUL wherever it had to grow; the cursor stays where
    it was; and the result is committed to the store at once. *)
Theorem truncate_sets_the_length (size : Z) (f : file) (w : world) :
  _mode f ∈ ["w"; "a"] -> 0 <= size ->
  let r := truncate (Some size) f w in
  outcome r = Ok tt
  /\ len (_data (handle r)) = size
  /\ (forall i, Z.of_nat i < size ->
        _data (handle r) !! i
        = if bool_decide (i < length (_data f))%nat then _data f !! i
          else Some NUL)
  /\ _position (handle r) = _position f
  /\ _store (globals r) !! _name f = Some (_data (handle r)).
Proof.
  intros Hm Hs. cbv zeta.
  assert (Hr : mode_in (_mode f) READ_MODES = false
               /\ mode_in (_mode f) WRITE_MODES = true).
  { revert Hm. generalize (_mode f). intros m Hm.
    each_mode Hm; split; reflexivity. }
  destruct Hr as [Hr Hw].
  assert (E : truncate (Some size) f w
              = (Ok tt,
                 set_data (take (Z.to_nat size) (_data f)
                           ++ replicate (Z.to_nat size - length (_data f))%nat
                                NUL) f,
                 World (<[_name f :=
                            take (Z.to_nat size) (_data f)
                            ++ replicate
                                 (Z.to_nat size - length (_data f))%nat NUL]>
                          (_store w)) (_fileno_counter w))).
  { unfold_step. rewrite Hr. step.
    replace (size <? 0) with false by (symmetry; apply Z.ltb_ge; exact Hs).
    step. rewrite Hw. step.
    rewrite slice_to by exact Hs. rewrite times_NUL.
    replace (Z.to_nat (size - len (take (Z.to_nat size) (_data f))))
      with (Z.to_nat size - length (_data f))%nat
      by (unfold len; rewrite length_take; lia).
    reflexivity. }
  rewrite E. clear E. unfold outcome, handle, globals.
  cbn [fst snd set_data _data _position _store].
  split; [reflexivity |]. split.
  { unfold len. rewrite length_app, length_take, length_replicate. lia. }
  split; [| split; [reflexivity | apply lookup_insert_eq]].
  intros i Hi. case_bool_decide as Hlt.
  - rewrite lookup_app_l by (rewrite length_take; lia).
    apply lookup_take_lt. lia.
  - rewrite lookup_app_r by (rewrite length_take; lia).
    apply lookup_replicate_2. rewrite length_take. lia.
Qed.

Lemma truncate_sets_the_length_witness :
  let f := handle (__init__ "f" "a" sample_world) in
  let r := truncate (Some 7) f sample_world in
  outcome r = Ok tt
  /\ len (_data (handle r)) = 7
  /\ (forall i, Z.of_nat i < 7 ->
        _data (handle r) !! i
        = if bool_decide (i < length (_data f))%nat then _data f !! i
          else Some NUL)
  /\ _position (handle r) = _position f
  /\ _store (globals r) !! _name f = Some (_data (handle r)).
Proof.
  apply (truncate_sets_the_length 7
           (handle (__init__ "f" "a" sample_world)) sample_world).
  - apply elem_of_cons. right. apply elem_of_cons. left. reflexivity.
  - lia.
Defined.

(** ** [seek] and [tell] *)

(** X23: [seek] in full.  It succeeds exactly when [whence] is 0, 1 or 2 and the
    target (the offset itself, the cursor plus the offset, or the length of
    the buffer plus the offset) is not negative; every other call raises
    [IOError('Invalid Argument')].  Neither the mode nor the closed flag
    plays a part, and a target beyond the end is accepted.  After a
    successful call [tell] returns the target and the iteration flag is
    cleared. *)
Theorem seek_succeeds_iff (position whence : Z) (f : file) (w : world) :
  let target := if whence =? 1 then _position f + position
                else if whence =? 2 then len (_data f) + position
                else position in
  let r := seek position whence f w in
  (outcome r = Ok tt <-> 0 <= whence <= 2 /\ 0 <= target)
  /\ (outcome r = Ok tt \/ outcome r = Raise (IOError (Msg "Invalid Argument")))
  /\ (outcome r = Ok tt ->
      outcome (run tell r) = Ok target /\ _in_iter (handle r) = false).
Proof.
  cbv zeta.
  set (target := if whence =? 1 then _position f + position
                 else if whence =? 2 then len (_data f) + position
                 else position).
  destruct (decide (0 <= whence <= 2 /\ 0 <= target)) as [[Hw Ht] | Hno].
  - rewrite (seek_ok position whence f w Hw Ht). fold target.
    split_all; try tauto; reflexivity.
  - assert (E : seek position whence f w
                = (Raise (IOError (Msg "Invalid Argument")), f, w)).
    { unfold_step.
      destruct ((0 <=? whence) && (whence <=? 2)) eqn:E1; step;
        [| reflexivity].
      fold target. destruct (target <? 0) eqn:E2; step; [reflexivity |].
      exfalso. apply Hno. apply andb_true_iff in E1 as [E0 E1]. lia. }
    rewrite E. unfold outcome. cbn [fst].
    split_all; [split; [discriminate | tauto] | right; reflexivity
               | discriminate].
Qed.

(** ** Leaving a [with] block *)

Section WithBlock.

Lemma perform_keeps_closed o f w :
  o <> OpClose -> _closed (handle (perform o f w)) = _closed f.
Proof.
  intros Ho. destruct o; try congruence; cbn [perform];
    rewrite ?forget_handle;
    try (unfold_meth; cases; congruence).
  rewrite writelines_unfold.
  destruct (mode_in (_mode f) WRITE_MODES); [| reflexivity].
  apply write_each_keeps_closed.
Qed.

End WithBlock.

(** X24: Leaving a [with] block commits what the handle holds.  On an open
    handle with write capability, [__enter__] returns the handle itself,
    and whatever single operation the block performs and whether or not it
    raises, [__exit__] then succeeds, leaves the handle closed with its
    buffer untouched, and the store holds that buffer under the handle's
    name. *)
Theorem with_block_commits (o : operation) (f : file) (w : world) :
  mode_in (_mode f) WRITE_MODES = true -> _closed f = false ->
  let entered := __enter__ f w in
  let body := run (perform o) entered in
  let left := run __exit__ body in
  outcome entered = Ok f
  /\ outcome left = Ok tt
  /\ _closed (handle left) = true
  /\ _data (handle left) = _data (handle body)
  /\ _store (globals left) !! _name f = Some (_data (handle body)).
Proof.
  intros Hm Hc. cbv zeta.
  change (__enter__ f w) with (Ok f, f, w).
  change (run (perform o) (Ok f, f, w)) with (perform o f w).
  unfold __exit__, run.
  destruct (perform_identity o f w) as (Hname & Hmode & _).
  set (fb := handle (perform o f w)) in *.
  set (wb := globals (perform o f w)).
  split; [reflexivity |].
  assert (Hdec : o = OpClose \/ o <> OpClose)
    by (destruct o; first [left; reflexivity | right; discriminate]).
  destruct Hdec as [-> | Ho].
  - cbn [perform] in fb, wb.
    pose proof (close_ok f w Hc) as E. rewrite Hm in E.
    assert (Efb : fb = set_closed true f) by (unfold fb; rewrite E; reflexivity).
    assert (Ewb : wb = World (<[_name f := _data f]> (_store w))
                         (_fileno_counter w))
      by (unfold wb; rewrite E; reflexivity).
    rewrite Efb, Ewb.
    split_all; try reflexivity. apply lookup_insert_eq.
  - assert (Hcb : _closed fb = false)
      by (unfold fb; rewrite perform_keeps_closed by exact Ho; exact Hc).
    rewrite close_ok by exact Hcb. rewrite Hmode, Hm.
    unfold outcome, handle, globals. cbn [fst snd set_closed _closed _data
      _store].
    rewrite Hname. split_all; try reflexivity. apply lookup_insert_eq.
Qed.

Lemma with_block_commits_witness :
  let f := handle (__init__ "f" "w" sample_world) in
  let entered := __enter__ f sample_world in
  let body := run (perform (OpRead None)) entered in
  let left := run __exit__ body in
  outcome entered = Ok f
  /\ outcome left = Ok tt
  /\ _closed (handle left) = true
  /\ _data (handle left) = _data (handle body)
  /\ _store (globals left) !! _name f = Some (_data (handle body)).
Proof.
  apply (with_block_commits (OpRead None)
           (handle (__init__ "f" "w" sample_world)) sample_world).
  - reflexivity.
  - reflexivity.
Defined.

(** ** The lines of [readlines] *)

(** A line as iteration yields it: not empty, and with no LF before its
    last unit. *)
Definition line_shaped (l : text) : Prop :=
  l <> [] /\ forall i, l !! i = Some LF -> S i = length l.

Section Shapes.

Lemma index_of_Some c s k :
  index_of c s = Some k ->
  s !! k = Some c /\ forall i, (i < k)%nat -> s !! i <> Some c.
Proof.
  revert k. induction s as [| x t IH]; intros k; [discriminate |].
  cbn [index_of]. destruct (Ascii.eqb x c) eqn:E.
  - intros [= <-]. apply Ascii.eqb_eq in E. subst x.
    split; [reflexivity | intros i Hi; lia].
  - destruct (index_of c t) as [j |]; [| discriminate].
    intros [= <-]. destruct (IH j eq_refl) as [Hj Hmin].
    split; [exact Hj |]. intros [| i] Hi.
    + cbn. intros [= ->]. rewrite Ascii.eqb_refl in E. discriminate.
    + cbn. apply Hmin. lia.
Qed.

Lemma index_of_None c s i : index_of c s = None -> s !! i <> Some c.
Proof.
  revert i. induction s as [| x t IH]; intros i; [intros _; destruct i; discriminate |].
  cbn [index_of]. destruct (Ascii.eqb x c) eqn:E; [discriminate |].
  destruct (index_of c t); [discriminate |]. intros _.
  destruct i as [| i].
  - cbn. intros [= ->]. rewrite Ascii.eqb_refl in E. discriminate.
  - cbn. apply IH. reflexivity.
Qed.

Lemma next_line_shaped f :
  0 <= _position f < len (_data f) -> line_shaped (next_line f).
Proof.
  intros Hp. pose proof (next_line_bounds f Hp) as Hb. split.
  - intros E. rewrite E in Hb. change (len []) with 0 in Hb. lia.
  - unfold next_line.
    set (rem := drop (Z.to_nat (_position f)) (_data f)).
    destruct (index_of LF rem) as [k |] eqn:E.
    + destruct (index_of_Some _ _ _ E) as [_ Hmin].
      pose proof (index_of_lt _ _ _ E) as Hk.
      intros i Hi. rewrite length_take.
      destruct (Nat.lt_ge_cases i (S k)) as [Hlt | Hge].
      * rewrite lookup_take_lt in Hi by exact Hlt.
        destruct (Nat.lt_ge_cases i k) as [Hik | Hik]; [| lia].
        exfalso. exact (Hmin i Hik Hi).
      * rewrite lookup_take_ge in Hi by exact Hge. discriminate.
    + intros i Hi. exfalso. exact (index_of_None _ _ i E Hi).
Qed.

Lemma list_self_shaped w fuel : forall f lines f' w',
  mode_in (_mode f) WRITE_MODES = false -> 0 <= _position f ->
  list_self fuel f w = Some (Ok lines, f', w') ->
  Forall line_shaped lines.
Proof.
  induction fuel as [| fuel IH]; intros f lines f' w' Hm Hp;
    [discriminate |].
  cbn [list_self]. rewrite next_step by assumption.
  destruct (len (_data f) <=? _position f) eqn:E.
  - intros [= <- _ _]. apply Forall_nil_2.
  - apply Z.leb_gt in E.
    pose proof (next_line_bounds f (conj Hp E)) as Hb.
    set (f1 := set_position (_position f + len (next_line f))
                 (set_in_iter true f)).
    specialize (IH f1).
    destruct (list_self fuel f1 w) as [[[[lines1 | e] f2] w2] |];
      [| discriminate | discriminate].
    intros [= <- _ _]. apply Forall_cons. split.
    + apply next_line_shaped. lia.
    + apply (IH lines1 f2 w2); [exact Hm | | reflexivity].
      cbn [f1 set_position _position]. lia.
Qed.

End Shapes.

(** X25: [readlines] cuts the rest of the content at its line ends.  On a
    text handle opened for reading only (mode ['r'] or ['rU']) whose cursor
    is not negative, with more fuel
    than units of content and whatever the [size] argument, [readlines]
    succeeds; the lines it returns, put end to end, are the content from the
    cursor on; each of them is non-empty and has no LF except as its last
    unit; the content is untouched and the cursor ends at or beyond the
    end. *)
Theorem readlines_cuts_at_line_ends (size : option Z) (f : file)
    (w : world) (fuel : nat) :
  _mode f ∈ ["r"; "rU"] -> 0 <= _position f ->
  (length (_data f) < fuel)%nat ->
  exists lines f',
    readlines fuel size f w = Some (Ok lines, f', w)
    /\ concat lines = drop (Z.to_nat (_position f)) (_data f)
    /\ Forall line_shaped lines
    /\ _data f' = _data f /\ len (_data f) <= _position f'.
Proof.
  intros Hmode Hp Hfuel.
  assert (Hm : mode_in (_mode f) WRITE_MODES = false).
  { revert Hmode. generalize (_mode f). intros m Hmode.
    each_mode Hmode; reflexivity. }
  destruct (list_self_drains w fuel f Hm Hp) as (lines & p & Hl & Hend & _ & Hcat);
    [len_lia |].
  exists lines, (set_in_iter false (set_position p (set_in_iter true f))).
  split_all.
  - unfold readlines, mode. rewrite Hm, Hl. reflexivity.
  - exact Hcat.
  - exact (list_self_shaped w fuel f lines _ w Hm Hp Hl).
  - reflexivity.
  - exact Hend.
Qed.

Lemma readlines_cuts_at_line_ends_witness :
  exists lines f',
    readlines 6 (Some 1) (handle (__init__ "f" "r" sample_world))
      sample_world
    = Some (Ok lines, f', sample_world)
    /\ concat lines
       = drop (Z.to_nat (_position (handle (__init__ "f" "r" sample_world))))
           (_data (handle (__init__ "f" "r" sample_world)))
    /\ Forall line_shaped lines
    /\ _data f' = _data (handle (__init__ "f" "r" sample_world))
    /\ len (_data (handle (__init__ "f" "r" sample_world))) <= _position f'.
Proof.
  apply (readlines_cuts_at_line_ends (Some 1)
           (handle (__init__ "f" "r" sample_world)) sample_world 6).
  - apply elem_of_cons. left. reflexivity.
  - vm_compute. discriminate.
  - vm_compute. lia.
Defined.
